(** * The dashboard widgets of react_101

  A shallow embedding of the stateful logic of [dashboard.tsx]: the
  simulated request of [UserProfile] (state hooks, [fetchUser], the
  [setTimeout] callback, the mount effect and the conditional rendering),
  [toggleTodo], the rows and the progress bar of [TodoList], the three
  handlers of [Counter], the interval effect of [Clock] and the class
  computation of [Button]. *)

From Stdlib Require Import ZArith QArith List String Bool Lia.
From Stdlib Require Import Floats.SpecFloat.
Import ListNotations.

Local Open Scope Z_scope.

(** ** JavaScript numbers

  A JS [number] is an IEEE 754 binary64 value.  [Math.random()] and the
  literal [0.7] are genuinely fractional, so they are modelled with the
  Standard Library's specification of binary64 ([spec_float] at precision
  53 and maximal exponent 1024), whose comparison is exact. *)
Module JsNumber.

Definition prec : Z := 53.
Definition emax : Z := 1024.

Definition number : Type := spec_float.

(** A well-formed binary64 value: canonical mantissa, exponent in range. *)
Definition is_number (x : number) : bool := valid_binary prec emax x.

(** The relational operators [a > b], [a < b] and [a <= b] of the language
    (all false on NaN). *)
Definition jsGt (a b : number) : bool := SFltb b a.
Definition jsLt (a b : number) : bool := SFltb a b.
Definition jsLe (a b : number) : bool := SFleb a b.

(** The literals of the source, as the doubles they denote:
    [0.7] is [0x1.6666666666666p-1]. *)
Definition lit_0 : number := S754_zero false.
Definition lit_1 : number := S754_finite false 4503599627370496 (-52).
Definition lit_0_7 : number := S754_finite false 6305039478318694 (-53).
(** Two draws used by the scenarios: the doubles written [0.4] and [0.9]. *)
Definition lit_0_4 : number := S754_finite false 7205759403792794 (-54).
Definition lit_0_9 : number := S754_finite false 8106479329266893 (-53).

(** The rational a finite number denotes (NaN and the infinities, which
    denote none, are sent to 0). *)
Definition value (x : number) : Q :=
  match x with
  | S754_finite s m e =>
      let n := if s then Z.neg m else Z.pos m in
      if 0 <=? e then inject_Z (n * 2 ^ e)
      else Qmake n (Z.to_pos (2 ^ (- e)))
  | _ => 0%Q
  end.

(** What [Math.random()] may return: a number [r] with [0 <= r && r < 1]. *)
Definition is_random_draw (r : number) : bool :=
  is_number r && jsLe lit_0 r && jsLt r lit_1.

End JsNumber.
Import JsNumber.

(** ** UserProfile *)
Module UserProfile.

Local Open Scope string_scope.

(** [interface User { name: string; email: string }] *)
Record User : Type := mkUser { name : string; email : string }.

(** The four [useState] cells of the component. *)
Record State : Type := mkState {
  user : option User;
  loading : bool;
  error : option string;
  randomNumber : option number
}.

(** The initial values passed to [useState]. *)
Definition initialState : State :=
  {| user := None; loading := false; error := None; randomNumber := None |}.

Definition setUser (u : option User) (s : State) : State :=
  {| user := u; loading := loading s; error := error s;
     randomNumber := randomNumber s |}.
Definition setLoading (b : bool) (s : State) : State :=
  {| user := user s; loading := b; error := error s;
     randomNumber := randomNumber s |}.
Definition setError (e : option string) (s : State) : State :=
  {| user := user s; loading := loading s; error := e;
     randomNumber := randomNumber s |}.
Definition setRandomNumber (n : option number) (s : State) : State :=
  {| user := user s; loading := loading s; error := error s;
     randomNumber := n |}.

(** The object passed to [setUser] on success and the message passed to
    [setError] on failure. *)
Definition fixedUser : User :=
  {| name := "Jesse Zhang"; email := "zz597375428@gmail.com" |}.
Definition failureMessage : string := "Failed to load user data".

(** What the component writes with [console.log]. *)
Inductive LogEntry : Type :=
| LogEffectMount                       (* '[UserProfile] effect mount' *)
| LogEffectCleanup                     (* '[UserProfile] effect cleanup' *)
| LogRandomNumber (random : number).   (* 'Random number:', random *)

(** The component instance together with the part of the host it talks
    to: the timers registered with [setTimeout] and not yet fired, and the
    console.  Every timer has the same delay (2000 ms), so timers fire in
    the order they were registered: [timers] is a queue, oldest first, of
    the handles [setTimeout] returned.  The cells of [ui] belong to the
    instance and survive the effect cleanup (under StrictMode the effect
    is set up, cleaned up and set up again on one instance). *)
Record Runtime : Type := mkRuntime {
  ui : State;
  timers : list nat;
  nextTimer : nat;
  console : list LogEntry
}.

Definition initialRuntime : Runtime :=
  {| ui := initialState; timers := []; nextTimer := 0; console := [] |}.

Definition updateUi (f : State -> State) (w : Runtime) : Runtime :=
  {| ui := f (ui w); timers := timers w; nextTimer := nextTimer w;
     console := console w |}.
Definition log (l : LogEntry) (w : Runtime) : Runtime :=
  {| ui := ui w; timers := timers w; nextTimer := nextTimer w;
     console := console w ++ [l] |}.
(** [setTimeout(callback, 2000)]: the callback is the same closure for
    every call, so a pending timer is recorded by its handle alone. *)
Definition setTimeout (w : Runtime) : Runtime :=
  {| ui := ui w; timers := timers w ++ [nextTimer w];
     nextTimer := S (nextTimer w); console := console w |}.

(** The body of [fetchUser]: four state resets, then the timer. *)
Definition fetchUser (w : Runtime) : Runtime :=
  let w := updateUi (setLoading true) w in
  let w := updateUi (setError None) w in
  let w := updateUi (setUser None) w in
  let w := updateUi (setRandomNumber None) w in
  setTimeout w.

(** The callback given to [setTimeout], run with [Math.random()]
    returning [random].  React batches the state updates made in one
    callback into one render (timer callbacks included from React 18 on;
    the module imports [use], a React 19 export), so the callback is one
    transition. *)
Definition timerCallback (random : number) (w : Runtime) : Runtime :=
  let w := updateUi (setRandomNumber (Some random)) w in
  let w := log (LogRandomNumber random) w in
  let w :=
    if jsGt random lit_0_7 then
      let w := updateUi (setError (Some failureMessage)) w in
      updateUi (setUser None) w
    else
      let w := updateUi (setUser (Some fixedUser)) w in
      updateUi (setError None) w in
  updateUi (setLoading false) w.

(** The setup and the cleanup of [useEffect(..., [])]. *)
Definition effectSetup (w : Runtime) : Runtime :=
  fetchUser (log LogEffectMount w).
Definition effectCleanup (w : Runtime) : Runtime :=
  log LogEffectCleanup w.

(** What can happen to an instance: the effect is set up (mount), the
    effect is cleaned up (disposal), a "Reload User" button is clicked,
    the oldest pending timer fires and [Math.random()] returns [random]. *)
Inductive Event : Type :=
| Mount
| Cleanup
| Reload
| Timeout (random : number).

(** One event.  A timer can fire only if one is pending; a click is
    accepted in every state (more than the display offers, which shows
    the buttons only next to an outcome). *)
Definition step (ev : Event) (w : Runtime) : option Runtime :=
  match ev with
  | Mount => Some (effectSetup w)
  | Cleanup => Some (effectCleanup w)
  | Reload => Some (fetchUser w)
  | Timeout random =>
      match timers w with
      | [] => None
      | _ :: rest =>
          Some (timerCallback random
                  {| ui := ui w; timers := rest; nextTimer := nextTimer w;
                     console := console w |})
      end
  end.

Fixpoint run (evs : list Event) (w : Runtime) : option Runtime :=
  match evs with
  | [] => Some w
  | ev :: evs' =>
      match step ev w with
      | Some w' => run evs' w'
      | None => None
      end
  end.

(** Events that call [fetchUser] (the [start()] of the specification). *)
Definition startsRequest (ev : Event) : bool :=
  match ev with Mount | Reload => true | _ => false end.
Definition isTimeout (ev : Event) : bool :=
  match ev with Timeout _ => true | _ => false end.

(** JavaScript truthiness of the two nullable cells, as tested by
    [!error], [!user], [user && ...] and [error && ...]: an object is
    truthy, a string is truthy unless empty, [null] is falsy. *)
Definition truthyUser (u : option User) : bool :=
  match u with Some _ => true | None => false end.
Definition truthyError (e : option string) : bool :=
  match e with
  | Some s => negb (String.eqb s "")
  | None => false
  end.

(** The blocks of the card body.  The success and the failure block
    carry what [randomNumber?.toFixed(3)] is applied to ([None]: the
    optional chain yields [undefined] and nothing is shown); both contain
    a "Reload User" button whose [onClick] is [fetchUser]. *)
Inductive Block : Type :=
| PleaseLogIn
| LoadingIndicator
| LoadSuccess (shown : option number) (userName userEmail : string)
| LoadFailed (shown : option number).

(** The four conditional blocks of the returned JSX, in source order. *)
Definition render (s : State) : list Block :=
  (if negb (loading s) && negb (truthyError (error s))
        && negb (truthyUser (user s))
   then [PleaseLogIn] else [])
  ++ (if loading s then [LoadingIndicator] else [])
  ++ (match user s with
      | Some u => [LoadSuccess (randomNumber s) (name u) (email u)]
      | None => []
      end)
  ++ (if truthyError (error s) then [LoadFailed (randomNumber s)] else []).

(** The three panels the specification lists. *)
Definition isOutcomeOrLoading (b : Block) : bool :=
  match b with PleaseLogIn => false | _ => true end.

(** The state [fetchUser] leaves: loading, every result cell [null]. *)
Definition loadingState : State :=
  {| user := None; loading := true; error := None; randomNumber := None |}.

(** The states the handlers produce: the initial one, the one [fetchUser]
    leaves, and the two the timer callback leaves, which record the draw
    together with the branch it selected. *)
Inductive consistent : State -> Prop :=
| consistent_initial : consistent initialState
| consistent_loading : consistent loadingState
| consistent_success (random : number) :
    jsGt random lit_0_7 = false ->
    consistent {| user := Some fixedUser; loading := false; error := None;
                  randomNumber := Some random |}
| consistent_failure (random : number) :
    jsGt random lit_0_7 = true ->
    consistent {| user := None; loading := false;
                  error := Some failureMessage;
                  randomNumber := Some random |}.

(** The sequence StrictMode runs on first mount: setup, cleanup, setup. *)
Definition strictModeMount : list Event := [Mount; Cleanup; Mount].

(** Whether a block contains a "Reload User" button ([onClick={fetchUser}]):
    the success block and the failure block do, the others do not. *)
Definition hasReloadButton (b : Block) : bool :=
  match b with
  | LoadSuccess _ _ _ | LoadFailed _ => true
  | PleaseLogIn | LoadingIndicator => false
  end.

(** Whether the display can produce an event: a click needs a rendered
    button; the effect and the timers do not depend on the display. *)
Definition offered (ev : Event) (w : Runtime) : bool :=
  match ev with
  | Reload => existsb hasReloadButton (render (ui w))
  | _ => true
  end.

(** Runs in which every click is one the display offers. *)
Definition guardedStep (ev : Event) (w : Runtime) : option Runtime :=
  if offered ev w then step ev w else None.

Fixpoint guardedRun (evs : list Event) (w : Runtime) : option Runtime :=
  match evs with
  | [] => Some w
  | ev :: evs' =>
      match guardedStep ev w with
      | Some w' => guardedRun evs' w'
      | None => None
      end
  end.

Definition isMount (ev : Event) : bool :=
  match ev with Mount => true | _ => false end.

(** How many events of a run satisfy a test. *)
Definition countEvents (f : Event -> bool) (evs : list Event) : nat :=
  List.length (filter f evs).

(** What the handler of an event writes with [console.log]. *)
Definition logOf (ev : Event) : list LogEntry :=
  match ev with
  | Mount => [LogEffectMount]
  | Cleanup => [LogEffectCleanup]
  | Reload => []
  | Timeout random => [LogRandomNumber random]
  end.

End UserProfile.

(** ** TodoList *)
Module TodoList.

Local Open Scope string_scope.

(** An element of the [todos] array.  The ids are integer-valued numbers,
    on which [===] is equality of integers. *)
Record Todo : Type := mkTodo { id : Z; text : string; completed : bool }.

(** The initial value passed to [useState]. *)
Definition initialTodos : list Todo :=
  [ {| id := 1; text := "Learn React useState"; completed := true |};
    {| id := 2; text := "Master useEffect"; completed := true |};
    {| id := 3; text := "Understand props"; completed := false |};
    {| id := 4; text := "Practice conditional rendering"; completed := false |};
    {| id := 5; text := "Build awesome apps"; completed := false |} ].

(** [todos.filter((todo) => todo.completed).length] *)
Definition completeCount (todos : list Todo) : nat :=
  List.length (filter completed todos).

(** The arrow function mapped over [todos]:
    [todo.id === id ? { ...todo, completed: !todo.completed } : todo]. *)
Definition toggleOne (id0 : Z) (todo : Todo) : Todo :=
  if (id todo =? id0)%Z
  then {| id := id todo; text := text todo;
          completed := negb (completed todo) |}
  else todo.

(** [toggleTodo(id)]: the array handed to [setTodos], as a function of the
    current [todos]. *)
Definition toggleTodo (id0 : Z) (todos : list Todo) : list Todo :=
  map (toggleOne id0) todos.

(** The rows of the list: [todos.map((todo) => <div key={todo.id}
    onClick={() => toggleTodo(todo.id)} className=...>)].  A row keeps the
    id it is keyed by and toggles, its class and its check mark. *)
Definition checkedStyle : string :=
  "text-gray-500 line-through bg-gray-50 opacity-75".
Definition uncheckedStyle : string := "text-gray-900 hover:bg-gray-100".

Record Row : Type := mkRow {
  key : Z;
  toggles : Z;
  style : string;
  checked : bool;
  label : string
}.

Definition renderRow (todo : Todo) : Row :=
  {| key := id todo;
     toggles := id todo;
     style := if completed todo then checkedStyle else uncheckedStyle;
     checked := completed todo;
     label := text todo |}.

Definition renderRows (todos : list Todo) : list Row := map renderRow todos.

(** A click on the [k]-th rendered row: its [onClick] calls [toggleTodo]
    with the id of the row's todo (no row, no click). *)
Definition clickRow (k : nat) (todos : list Todo) : list Todo :=
  match nth_error (renderRows todos) k with
  | Some row => toggleTodo (toggles row) todos
  | None => todos
  end.

(** The [value] and the [max] of the progress bar. *)
Definition progressValue (todos : list Todo) : nat := completeCount todos.
Definition progressMax (todos : list Todo) : nat := List.length todos.

End TodoList.

(** ** Counter *)
Module Counter.

(** The [count] cell.  It starts at 0 and only moves by one or back to 0,
    so it is an integer-valued binary64 number; it is recorded by the
    integer it denotes. *)
Record State : Type := mkState { count : Z }.

Definition initialState : State := {| count := 0 |}.

Definition setCount (n : Z) (s : State) : State := {| count := n |}.

(** Rounding an integer to binary64, to nearest with ties to even: the
    integers up to [2^53] in magnitude are numbers; a larger one keeps its
    53 leading bits [q], rounded by the bits [r] dropped below them.
    (Magnitudes from [2^1024] on round to [Infinity] and are outside this
    model.) *)
Definition roundToNumber (z : Z) : Z :=
  let a := Z.abs z in
  if a <=? 2 ^ 53 then z
  else
    let drop := Z.log2 a - 52 in
    let q := a / 2 ^ drop in
    let r := a mod 2 ^ drop in
    let half := 2 ^ (drop - 1) in
    let q' := if r <? half then q
              else if half <? r then q + 1
              else if Z.even q then q else q + 1 in
    Z.sgn z * (q' * 2 ^ drop).

(** [a + b] and [a - b] on integer-valued numbers: the exact result,
    rounded. *)
Definition jsAdd (a b : Z) : Z := roundToNumber (a + b).
Definition jsSub (a b : Z) : Z := roundToNumber (a - b).

Definition increment (s : State) : State := setCount (jsAdd (count s) 1) s.
Definition decrement (s : State) : State := setCount (jsSub (count s) 1) s.
Definition reset (s : State) : State := setCount 0 s.

(** The binary64 number an integer rounds to, by the Standard Library's
    specification, and integers around the limits of exactness, on which
    [jsAdd] and [jsSub] are compared with its [SFadd] and [SFsub]. *)
Definition numberOfZ (z : Z) : number := binary_normalize prec emax z 0 false.

Definition sampleCounts : list Z :=
  [0; 1; -1; 2; -2; 41; 4503599627370495; 4503599627370496;
   9007199254740990; 9007199254740991; 9007199254740992;
   -9007199254740990; -9007199254740991; -9007199254740992].

Definition sampleIntegers : list Z :=
  [9007199254740993; 9007199254740994; 9007199254740995; 9007199254740997;
   18014398509481985; 18014398509481986; 18014398509481987;
   18014398509481990; -9007199254740993; -9007199254740995;
   36028797018963967; 36028797018963971; 36028797018963972;
   36028797018963974].

(** The three buttons of the widget and their [onClick] handlers. *)
Inductive Click : Type := ClickDecrement | ClickReset | ClickIncrement.

Definition onClick (c : Click) : State -> State :=
  match c with
  | ClickDecrement => decrement
  | ClickReset => reset
  | ClickIncrement => increment
  end.

(** A sequence of clicks, each handled in the render that follows the
    previous one. *)
Definition clicks (cs : list Click) (s : State) : State :=
  fold_left (fun s c => onClick c s) cs s.

Definition isReset (c : Click) : bool :=
  match c with ClickReset => true | _ => false end.

(** What a click adds to the count when it is not a reset. *)
Definition delta (c : Click) : Z :=
  match c with
  | ClickDecrement => -1
  | ClickReset => 0
  | ClickIncrement => 1
  end.

End Counter.

(** ** Button *)
Module Button.

Local Open Scope string_scope.

(** [variant?: 'primary' | 'neutral' | 'info' | 'error' | 'accent' |
    'success'] *)
Inductive Variant : Type :=
| primary | neutral | info | error | accent | success.

(** The string literal a variant is. *)
Definition variantName (v : Variant) : string :=
  match v with
  | primary => "primary"
  | neutral => "neutral"
  | info => "info"
  | error => "error"
  | accent => "accent"
  | success => "success"
  end.

(** The table [variantClassMap].  It has an entry for every variant of the
    type, so the [?? ''] after the lookup is never taken. *)
Definition variantClassMap (v : Variant) : string :=
  match v with
  | primary => "btn-primary"
  | neutral => "btn-neutral"
  | info => "btn-info"
  | error => "btn-error"
  | accent => "btn-accent"
  | success => "btn-success"
  end.

Inductive ButtonType : Type := TypeButton | TypeSubmit | TypeReset.

(** The props that decide the rendered attributes; an omitted prop is
    [None] ([undefined]). *)
Record Props : Type := mkProps {
  variant : option Variant;
  disabled : option bool;
  type : option ButtonType;
  className : option string
}.

(** The attributes of the rendered [<button>]. *)
Record Rendered : Type := mkRendered {
  classAttr : string;
  disabledAttr : bool;
  typeAttr : ButtonType
}.

(** [className || '']: [undefined] and the empty string are falsy. *)
Definition classNameOrEmpty (c : option string) : string :=
  match c with
  | Some s => if String.eqb s "" then "" else s
  | None => ""
  end.

(** The component: parameter defaults ([variant = 'neutral'],
    [disabled = false], [type = 'button']), the table lookup and the
    template literal ["btn ${variantClass} ${className || ''}"]. *)
Definition Button (p : Props) : Rendered :=
  let v := match variant p with Some v => v | None => neutral end in
  let d := match disabled p with Some d => d | None => false end in
  let t := match type p with Some t => t | None => TypeButton end in
  let variantClass := variantClassMap v in
  {| classAttr := "btn " ++ variantClass ++ " " ++ classNameOrEmpty (className p);
     disabledAttr := d;
     typeAttr := t |}.

End Button.

(** ** Clock *)
Module Clock.

(** What [new Date()] returns: an instant, in milliseconds. *)
Definition Date : Type := Z.

(** The two [useState] cells. *)
Record State : Type := mkState {
  time : option Date;
  showBadExample : bool
}.

Definition initialState : State :=
  {| time := None; showBadExample := false |}.

(** The effect of the current render: not set up (before mount, after
    unmount), or set up, with what its setup returned: the cleanup closure,
    recorded by the interval handle it captured, or [undefined]. *)
Inductive Effect : Type :=
| NotSetUp
| SetUp (cleanup : option nat).

(** The instance, the intervals registered with [setInterval] and not
    cleared, and the effect. *)
Record Runtime : Type := mkRuntime {
  ui : State;
  intervals : list nat;
  nextInterval : nat;
  effect : Effect
}.

Definition initialRuntime : Runtime :=
  {| ui := initialState; intervals := []; nextInterval := 0;
     effect := NotSetUp |}.

Definition setTime (d : option Date) (w : Runtime) : Runtime :=
  {| ui := {| time := d; showBadExample := showBadExample (ui w) |};
     intervals := intervals w; nextInterval := nextInterval w;
     effect := effect w |}.
Definition setShowBadExample (b : bool) (w : Runtime) : Runtime :=
  {| ui := {| time := time (ui w); showBadExample := b |};
     intervals := intervals w; nextInterval := nextInterval w;
     effect := effect w |}.
Definition withEffect (e : Effect) (w : Runtime) : Runtime :=
  {| ui := ui w; intervals := intervals w; nextInterval := nextInterval w;
     effect := e |}.

(** [setInterval(callback, 1000)] returns a fresh handle;
    [clearInterval(timer)] removes it. *)
Definition setInterval (w : Runtime) : Runtime * nat :=
  ({| ui := ui w; intervals := intervals w ++ [nextInterval w];
      nextInterval := S (nextInterval w); effect := effect w |},
   nextInterval w).
Definition clearInterval (timer : nat) (w : Runtime) : Runtime :=
  {| ui := ui w;
     intervals := filter (fun i => negb (Nat.eqb i timer)) (intervals w);
     nextInterval := nextInterval w; effect := effect w |}.

(** The setup of [useEffect(..., [showBadExample])], run while [new Date()]
    is [now]: outside the bad example it sets the time, starts the interval
    and returns the cleanup that clears it; in the bad example it does
    nothing and returns nothing. *)
Definition effectSetup (now : Date) (w : Runtime) : Runtime :=
  if negb (showBadExample (ui w)) then
    let w := setTime (Some now) w in
    let (w, timer) := setInterval w in
    withEffect (SetUp (Some timer)) w
  else withEffect (SetUp None) w.

(** Running the cleanup the last setup returned, if any. *)
Definition effectCleanup (w : Runtime) : Runtime :=
  match effect w with
  | SetUp (Some timer) => withEffect NotSetUp (clearInterval timer w)
  | _ => withEffect NotSetUp w
  end.

(** The button: [setShowBadExample(!showBadExample)].  The dependency of
    the effect changes, so React cleans the previous effect up and sets the
    effect up again in the new render. *)
Definition toggleClick (now : Date) (w : Runtime) : Runtime :=
  let w := setShowBadExample (negb (showBadExample (ui w))) w in
  effectSetup now (effectCleanup w).

(** The interval callback: [setTime(new Date())]. *)
Definition tick (now : Date) (w : Runtime) : Runtime := setTime (Some now) w.

Inductive Event : Type :=
| Mount (now : Date)
| Unmount
| Toggle (now : Date)
| Tick (now : Date).

(** A mount renders a fresh instance: its cells start from the [useState]
    defaults, whatever an earlier, unmounted instance held.  (StrictMode's
    cleanup and second setup keep the instance, but run right after the
    first setup, when the cells and the defaults agree on
    [showBadExample] and the setup overwrites [time].)  The timers belong
    to the host and stay. *)
Definition freshInstance (w : Runtime) : Runtime :=
  {| ui := initialState; intervals := intervals w;
     nextInterval := nextInterval w; effect := effect w |}.

(** One event.  React sets an effect up only when it is not set up, and
    cleans up only an effect that is; the button exists while the component
    is mounted; an interval callback needs an interval.  After an unmount
    [ui] is what the instance held; nothing is displayed until a mount. *)
Definition step (ev : Event) (w : Runtime) : option Runtime :=
  match ev, effect w with
  | Mount now, NotSetUp => Some (effectSetup now (freshInstance w))
  | Mount _, SetUp _ => None
  | Unmount, SetUp _ => Some (effectCleanup w)
  | Unmount, NotSetUp => None
  | Toggle now, SetUp _ => Some (toggleClick now w)
  | Toggle _, NotSetUp => None
  | Tick now, _ =>
      match intervals w with
      | [] => None
      | _ :: _ => Some (tick now w)
      end
  end.

Fixpoint run (evs : list Event) (w : Runtime) : option Runtime :=
  match evs with
  | [] => Some w
  | ev :: evs' =>
      match step ev w with
      | Some w' => run evs' w'
      | None => None
      end
  end.

(** What the card shows of the time: [time ? time.toLocaleTimeString() :
    '--:--:-- --'], and whether the alert is rendered. *)
Inductive TimeText : Type :=
| Placeholder
| LocaleTime (d : Date).

Definition timeText (s : State) : TimeText :=
  match time s with
  | Some d => LocaleTime d
  | None => Placeholder
  end.

Definition alertShown (s : State) : bool := showBadExample s.

(** The intervals an effect accounts for: the one its cleanup will clear,
    present exactly when the effect is set up outside the bad example. *)
Definition accounted (w : Runtime) : Prop :=
  match effect w with
  | NotSetUp => intervals w = []
  | SetUp None => intervals w = [] /\ showBadExample (ui w) = true
  | SetUp (Some timer) =>
      intervals w = [timer] /\ showBadExample (ui w) = false
  end.

End Clock.

(** * Verification *)

(** *** Facts about binary64 comparison *)

Lemma digits2_pos_bounds (m : positive) :
  2 ^ (Z.pos (digits2_pos m) - 1) <= Z.pos m < 2 ^ Z.pos (digits2_pos m).
Proof.
  induction m as [p IH | p IH | ]; cbn [digits2_pos].
  - rewrite Pos2Z.inj_succ.
    replace (Z.succ (Z.pos (digits2_pos p)) - 1) with (Z.succ (Z.pos (digits2_pos p) - 1)) by lia.
    rewrite !Z.pow_succ_r by lia. lia.
  - rewrite Pos2Z.inj_succ.
    replace (Z.succ (Z.pos (digits2_pos p)) - 1) with (Z.succ (Z.pos (digits2_pos p) - 1)) by lia.
    rewrite !Z.pow_succ_r by lia. lia.
  - cbn. lia.
Qed.

Lemma compare_cont_Eq_Z (p q : positive) :
  Pos.compare_cont Eq p q = (Z.pos p ?= Z.pos q).
Proof. reflexivity. Qed.

(** A positive draw below 1 has exponent at most -53 and a mantissa of at
    most 53 bits. *)
Lemma random_draw_finite_shape (m : positive) (e : Z) :
  is_random_draw (S754_finite false m e) = true ->
  e <= -53 /\ Z.pos m < 2 ^ 53.
Proof.
  unfold is_random_draw, is_number, valid_binary, bounded, canonical_mantissa,
    fexp, emin, jsLt, SFltb, lit_1, prec, emax.
  cbn [SFcompare].
  intros H.
  apply andb_prop in H as [H Hlt]. apply andb_prop in H as [H _].
  apply andb_prop in H as [Hcan _].
  apply Z.eqb_eq in Hcan.
  pose proof (digits2_pos_bounds m) as [Hlo Hhi].
  set (d := Z.pos (digits2_pos m)) in *.
  assert (Hd : d <= 53) by lia.
  assert (Hm : Z.pos m < 2 ^ 53).
  { eapply Z.lt_le_trans; [exact Hhi|]. apply Z.pow_le_mono_r; lia. }
  split; [|exact Hm].
  destruct (Z.compare_spec e (-52)) as [He | He | He]; try discriminate.
  - (* e = -52 forces a 53-bit mantissa, which is at least 1 *)
    subst e. assert (d = 53) by lia.
    rewrite compare_cont_Eq_Z in Hlt.
    destruct (Z.compare_spec (Z.pos m) 4503599627370496) as [E | L | G];
      try discriminate.
    clearbody d. subst d. change (2 ^ (53 - 1)) with 4503599627370496 in Hlo.
    lia.
  - lia.
Qed.

(** On the draws of [Math.random()], the test [random > 0.7] of the source
    (against the double nearest to 0.7) agrees with the comparison of the
    draw's exact value against the rational 7/10: no double lies between
    the two thresholds. *)
Lemma gt_0_7_exact (r : number) :
  is_random_draw r = true ->
  jsGt r lit_0_7 = true <-> (7 # 10 < value r)%Q.
Proof.
  intros Hr. destruct r as [s | [|] | | [|] m e]; try discriminate.
  - (* zero *) cbn. split; [discriminate|]. unfold Qlt; cbn; lia.
  - (* negative: fails [0 <= r] *)
    unfold is_random_draw in Hr. apply andb_prop in Hr as [Hr _].
    apply andb_prop in Hr as [_ Hr]. discriminate.
  - destruct (random_draw_finite_shape m e Hr) as [He Hm].
    unfold jsGt, SFltb, lit_0_7. cbn [SFcompare].
    unfold value. destruct (Z.leb_spec 0 e) as [Hge|_]; [lia|].
    assert (Hpow : 0 < 2 ^ (- e)) by (apply Z.pow_pos_nonneg; lia).
    unfold Qlt. cbn [Qnum Qden]. rewrite Z2Pos.id by exact Hpow.
    destruct (Z.compare_spec (-53) e) as [E | L | G].
    + subst e. change (2 ^ (- -53)) with 9007199254740992.
      rewrite compare_cont_Eq_Z.
      destruct (Z.compare_spec 6305039478318694 (Z.pos m)) as [E | L | G];
        (split; [try discriminate|]); intros; try reflexivity; lia.
    + lia.
    + split; [discriminate|]. intros Hv. exfalso.
      assert (2 ^ 54 <= 2 ^ (- e)) by (apply Z.pow_le_mono_r; lia).
      change (2 ^ 53) with 9007199254740992 in Hm.
      change (2 ^ 54) with 18014398509481984 in H. lia.
Qed.


(** The literals are well-formed doubles, and [lit_0_7] is the double
    nearest to 7/10: it lies below 7/10, its successor lies above, and it is
    the closer of the two. *)
Example literals_are_numbers :
  forallb is_number [lit_0; lit_1; lit_0_7; lit_0_4; lit_0_9] = true.
Proof. reflexivity. Qed.

Example lit_0_7_nearest :
  (value lit_0_7 < 7 # 10)%Q
  /\ (7 # 10 < value (S754_finite false 6305039478318695 (-53)))%Q
  /\ ((7 # 10) - value lit_0_7
      < value (S754_finite false 6305039478318695 (-53)) - (7 # 10))%Q.
Proof. repeat split. Qed.

Example draws_in_range :
  is_random_draw lit_0 = true
  /\ is_random_draw lit_0_7 = true
  /\ is_random_draw lit_1 = false
  /\ is_random_draw S754_nan = false.
Proof. repeat split. Qed.

(** ** UserProfile: the handlers, one by one *)

Import UserProfile.

Lemma ui_fetchUser (w : Runtime) : ui (fetchUser w) = loadingState.
Proof. reflexivity. Qed.

Lemma timers_fetchUser (w : Runtime) :
  timers (fetchUser w) = timers w ++ [nextTimer w].
Proof. reflexivity. Qed.

Lemma ui_timerCallback (random : number) (w : Runtime) :
  ui (timerCallback random w) =
  if jsGt random lit_0_7
  then {| user := None; loading := false; error := Some failureMessage;
          randomNumber := Some random |}
  else {| user := Some fixedUser; loading := false; error := None;
          randomNumber := Some random |}.
Proof. unfold timerCallback. destruct (jsGt random lit_0_7); reflexivity. Qed.

Lemma timers_timerCallback (random : number) (w : Runtime) :
  timers (timerCallback random w) = timers w
  /\ nextTimer (timerCallback random w) = nextTimer w.
Proof.
  unfold timerCallback. destruct (jsGt random lit_0_7); split; reflexivity.
Qed.

Lemma consistent_timerCallback (random : number) (w : Runtime) :
  consistent (ui (timerCallback random w)).
Proof.
  rewrite ui_timerCallback.
  destruct (jsGt random lit_0_7) eqn:Hgt; constructor; exact Hgt.
Qed.

(** The shape of a step, by event. *)
Lemma step_inv (ev : Event) (w w' : Runtime) :
  step ev w = Some w' ->
  match ev with
  | Mount => w' = effectSetup w
  | Cleanup => w' = effectCleanup w
  | Reload => w' = fetchUser w
  | Timeout random =>
      exists t rest, timers w = t :: rest
        /\ w' = timerCallback random
                  {| ui := ui w; timers := rest; nextTimer := nextTimer w;
                     console := console w |}
  end.
Proof.
  destruct ev; cbn [step]; intros H.
  - now inversion H.
  - now inversion H.
  - now inversion H.
  - destruct (timers w) as [|t rest]; [discriminate|].
    inversion H. now exists t, rest.
Qed.

Ltac step_cases H :=
  let t := fresh "t" in let rest := fresh "rest" in
  let Ht := fresh "Htimers" in
  match type of H with
  | step ?ev _ = Some _ =>
      apply step_inv in H; destruct ev;
      [ subst | subst | subst | destruct H as (t & rest & Ht & H); subst ]
  end.

Lemma step_consistent (ev : Event) (w w' : Runtime) :
  consistent (ui w) -> step ev w = Some w' -> consistent (ui w').
Proof.
  intros Hc H. step_cases H.
  - apply consistent_loading.
  - exact Hc.
  - apply consistent_loading.
  - apply consistent_timerCallback.
Qed.

Lemma run_consistent (evs : list Event) :
  forall w w', consistent (ui w) -> run evs w = Some w' -> consistent (ui w').
Proof.
  induction evs as [|ev evs IH]; cbn [run]; intros w w' Hc H.
  - inversion H; subst; exact Hc.
  - destruct (step ev w) as [w1|] eqn:Hstep; [|discriminate].
    eapply IH; [|exact H]. eapply step_consistent; eassumption.
Qed.

Lemma reachable_consistent (evs : list Event) (w : Runtime) :
  run evs initialRuntime = Some w -> consistent (ui w).
Proof. apply run_consistent. apply consistent_initial. Qed.

Lemma run_app (evs1 evs2 : list Event) (w : Runtime) :
  run (evs1 ++ evs2) w =
  match run evs1 w with Some w1 => run evs2 w1 | None => None end.
Proof.
  revert w. induction evs1 as [|ev evs1 IH]; intros w; cbn [run app].
  - reflexivity.
  - destruct (step ev w); [apply IH | reflexivity].
Qed.

(** With no timer pending, nothing changes until [fetchUser] is called:
    no completion can fire and the cleanup writes no cell. *)
Lemma run_without_start (evs : list Event) :
  forall w w',
    timers w = [] ->
    existsb startsRequest evs = false ->
    run evs w = Some w' ->
    ui w' = ui w /\ timers w' = [].
Proof.
  induction evs as [|ev evs IH]; cbn [run existsb]; intros w w' Ht Hns H.
  - inversion H; subst; auto.
  - apply orb_false_elim in Hns as [Hev Hns].
    destruct (step ev w) as [w1|] eqn:Hstep; [|discriminate].
    step_cases Hstep; try discriminate; [|congruence].
    exact (IH (effectCleanup w) w' Ht Hns H).
Qed.

(** Once [fetchUser] has run, the cells never return to their initial
    values: either [loading] is set or a draw is recorded. *)
Lemma step_stays_started (ev : Event) (w w' : Runtime) :
  ui w <> initialState -> step ev w = Some w' -> ui w' <> initialState.
Proof.
  intros Hne H. step_cases H.
  - discriminate.
  - exact Hne.
  - discriminate.
  - rewrite ui_timerCallback. destruct (jsGt random lit_0_7); discriminate.
Qed.

Lemma run_stays_started (evs : list Event) :
  forall w w',
    ui w <> initialState -> run evs w = Some w' -> ui w' <> initialState.
Proof.
  induction evs as [|ev evs IH]; cbn [run]; intros w w' Hne H.
  - inversion H; subst; exact Hne.
  - destruct (step ev w) as [w1|] eqn:Hstep; [|discriminate].
    eapply IH; [|exact H]. eapply step_stays_started; eassumption.
Qed.

Lemma run_after_first_start (evs : list Event) :
  forall w w',
    existsb startsRequest evs = true ->
    run evs w = Some w' -> ui w' <> initialState.
Proof.
  induction evs as [|ev evs IH]; cbn [run existsb]; intros w w' Hs H.
  - discriminate.
  - destruct (step ev w) as [w1|] eqn:Hstep; [|discriminate].
    destruct (startsRequest ev) eqn:Hev.
    + eapply run_stays_started; [|exact H].
      step_cases Hstep; discriminate.
    + eapply IH; eassumption.
Qed.

(** After [fetchUser], and as long as no timer fires, the cells keep the
    values [fetchUser] wrote and the timer it registered stays pending. *)
Lemma run_without_timeout (t : nat) (evs : list Event) :
  forall w w',
    forallb (fun ev => negb (isTimeout ev)) evs = true ->
    ui w = loadingState -> In t (timers w) ->
    run evs w = Some w' ->
    ui w' = loadingState /\ In t (timers w').
Proof.
  induction evs as [|ev evs IH]; cbn [run forallb]; intros w w' Hnt Hui Hin H.
  - inversion H; subst; auto.
  - apply andb_prop in Hnt as [Hev Hnt].
    destruct (step ev w) as [w1|] eqn:Hstep; [|discriminate].
    step_cases Hstep; try discriminate.
    + apply (IH (effectSetup w) w' Hnt); [reflexivity | | exact H].
      unfold effectSetup. rewrite timers_fetchUser.
      apply in_or_app. left. exact Hin.
    + exact (IH (effectCleanup w) w' Hnt Hui Hin H).
    + apply (IH (fetchUser w) w' Hnt); [reflexivity | | exact H].
      rewrite timers_fetchUser. apply in_or_app. left. exact Hin.
Qed.

(** What a consistent state renders: one block, filled from the cells. *)
Lemma render_consistent (s : State) :
  consistent s ->
  exists b,
    render s = [b]
    /\ match b with
       | PleaseLogIn => s = initialState
       | LoadingIndicator => s = loadingState
       | LoadSuccess shown userName userEmail =>
           exists random,
             shown = Some random /\ randomNumber s = Some random
             /\ userName = name fixedUser /\ userEmail = email fixedUser
       | LoadFailed shown =>
           exists random, shown = Some random /\ randomNumber s = Some random
       end.
Proof.
  intros Hc. destruct Hc as [ | | random Hgt | random Hgt ].
  - exists PleaseLogIn. split; reflexivity.
  - exists LoadingIndicator. split; reflexivity.
  - eexists. split; [reflexivity|]. exists random. repeat split.
  - eexists. split; [reflexivity|]. exists random. repeat split.
Qed.

(** ** UserProfile: the properties *)

(** C1. Mutual exclusion of outcomes: after every sequence of [fetchUser]
    calls (mount effect or reload click), cleanups and timer completions,
    whatever the draws, [user] and [error] are never both non-null. *)
Theorem user_and_error_exclusive (evs : list Event) (w : Runtime) :
  run evs initialRuntime = Some w ->
  ~ (user (ui w) <> None /\ error (ui w) <> None).
Proof.
  intros Hrun [Hu He].
  pose proof (reachable_consistent evs w Hrun) as Hc.
  destruct Hc; cbn in Hu, He; congruence.
Qed.

Lemma user_and_error_exclusive_witness :
  exists w,
    run (strictModeMount ++ [Timeout lit_0_4; Timeout lit_0_9])
        initialRuntime = Some w
    /\ ~ (user (ui w) <> None /\ error (ui w) <> None).
Proof.
  eexists. split; [vm_compute; reflexivity|].
  apply (user_and_error_exclusive
           (strictModeMount ++ [Timeout lit_0_4; Timeout lit_0_9])).
  vm_compute. reflexivity.
Defined.

(** C8. The random value accompanies every outcome: in every reachable
    state, if [user] or [error] is non-null then [randomNumber] is
    non-null. *)
Theorem outcome_has_random_number (evs : list Event) (w : Runtime) :
  run evs initialRuntime = Some w ->
  user (ui w) <> None \/ error (ui w) <> None ->
  randomNumber (ui w) <> None.
Proof.
  intros Hrun Hout.
  pose proof (reachable_consistent evs w Hrun) as Hc.
  destruct Hc; cbn in Hout |- *; try discriminate;
    destruct Hout as [H | H]; congruence.
Qed.

Lemma outcome_has_random_number_witness :
  exists w,
    run [Mount; Timeout lit_0_9] initialRuntime = Some w
    /\ error (ui w) = Some failureMessage
    /\ randomNumber (ui w) <> None.
Proof.
  eexists. split; [vm_compute; reflexivity|]. split; [reflexivity|].
  apply (outcome_has_random_number [Mount; Timeout lit_0_9]).
  - vm_compute. reflexivity.
  - right. discriminate.
Defined.

(** X19. Reset by [fetchUser]: called in any state, [fetchUser] leaves
    [loading] true and [user], [error] and [randomNumber] null, and this
    lasts, with the timer it registered still pending, through every
    further event that is not a timer completion. *)
Theorem fetchUser_resets (w : Runtime) (evs : list Event) (w' : Runtime) :
  forallb (fun ev => negb (isTimeout ev)) evs = true ->
  run evs (fetchUser w) = Some w' ->
  (loading (ui (fetchUser w)) = true
   /\ user (ui (fetchUser w)) = None
   /\ error (ui (fetchUser w)) = None
   /\ randomNumber (ui (fetchUser w)) = None)
  /\ (loading (ui w') = true
      /\ user (ui w') = None
      /\ error (ui w') = None
      /\ randomNumber (ui w') = None)
  /\ In (nextTimer w) (timers w').
Proof.
  intros Hnt Hrun.
  split; [repeat split|].
  destruct (run_without_timeout (nextTimer w) evs (fetchUser w) w' Hnt)
    as [Hui Hin]; try assumption.
  - reflexivity.
  - rewrite timers_fetchUser. apply in_or_app. right. left. reflexivity.
  - rewrite Hui. repeat split. exact Hin.
Qed.

Lemma fetchUser_resets_witness :
  error (ui (timerCallback lit_0_9 initialRuntime)) = Some failureMessage
  /\ ui (effectCleanup (fetchUser (timerCallback lit_0_9 initialRuntime)))
     = loadingState.
Proof.
  split; [reflexivity|].
  pose proof (fetchUser_resets (timerCallback lit_0_9 initialRuntime)
                [Cleanup]
                (effectCleanup (fetchUser (timerCallback lit_0_9 initialRuntime)))
                eq_refl eq_refl) as [_ [(Hl & Hu & He & Hr) _]].
  destruct (ui (effectCleanup (fetchUser (timerCallback lit_0_9 initialRuntime)))).
  cbn in Hl, Hu, He, Hr. subst. reflexivity.
Defined.

(** C6, as stated, fails: the initial state, before the mount effect has
    called [fetchUser], shows none of the loading indicator, the success
    panel and the failure panel (it shows "Please log in"). *)
Lemma initial_render_shows_no_panel :
  ~ (forall evs w,
        run evs initialRuntime = Some w ->
        List.length (filter isOutcomeOrLoading (render (ui w))) = 1%nat).
Proof.
  intros H. specialize (H [] initialRuntime eq_refl). discriminate H.
Qed.

(** C6, amended. In every reachable state the card body shows exactly one
    block.  Before the first call of [fetchUser] it is the "Please log in"
    placeholder; from then on it is one of the loading indicator, the
    success panel (the fields of the fixed user and the recorded draw) and
    the failure panel (the recorded draw). *)
Theorem render_exactly_one_block (evs : list Event) (w : Runtime) :
  run evs initialRuntime = Some w ->
  exists b,
    render (ui w) = [b]
    /\ isOutcomeOrLoading b = existsb startsRequest evs
    /\ match b with
       | PleaseLogIn => ui w = initialState
       | LoadingIndicator => loading (ui w) = true
       | LoadSuccess shown userName userEmail =>
           exists random,
             shown = Some random /\ randomNumber (ui w) = Some random
             /\ userName = name fixedUser /\ userEmail = email fixedUser
       | LoadFailed shown =>
           exists random,
             shown = Some random /\ randomNumber (ui w) = Some random
       end.
Proof.
  intros Hrun.
  destruct (render_consistent (ui w) (reachable_consistent evs w Hrun))
    as (b & Hrender & Hb).
  exists b. split; [exact Hrender|]. split.
  - destruct (existsb startsRequest evs) eqn:Hs.
    + pose proof (run_after_first_start evs _ _ Hs Hrun) as Hne.
      destruct b; try reflexivity. contradiction.
    + destruct (run_without_start evs initialRuntime w eq_refl Hs Hrun)
        as [Hui _].
      destruct b; try reflexivity.
      * rewrite Hui in Hb. discriminate Hb.
      * destruct Hb as (random & _ & Hr & _). rewrite Hui in Hr. discriminate Hr.
      * destruct Hb as (random & _ & Hr). rewrite Hui in Hr. discriminate Hr.
  - destruct b; try exact Hb. rewrite Hb. reflexivity.
Qed.

Lemma render_exactly_one_block_witness :
  exists w b,
    run (strictModeMount ++ [Timeout lit_0_4]) initialRuntime = Some w
    /\ render (ui w) = [b]
    /\ isOutcomeOrLoading b = true.
Proof.
  eexists.
  assert (Hrun : run (strictModeMount ++ [Timeout lit_0_4]) initialRuntime
                 = Some ?[w]) by (vm_compute; reflexivity).
  destruct (render_exactly_one_block _ _ Hrun) as (b & Hrender & Hkind & _).
  exists b. split; [exact Hrun|]. split; [exact Hrender | exact Hkind].
Defined.

(** X20. A completion schedules nothing: a completion that leaves the
    failure set registers no timer (it only consumes its own), and if no
    other request is still in flight the state it leaves is kept, with no
    timer pending, by every sequence of events that does not call
    [fetchUser]. *)
Theorem no_automatic_retry (random : number) (w w' : Runtime) :
  step (Timeout random) w = Some w' ->
  error (ui w') <> None ->
  (exists t, timers w = t :: timers w')
  /\ nextTimer w' = nextTimer w
  /\ (timers w' = [] ->
      forall evs w'',
        existsb startsRequest evs = false ->
        run evs w' = Some w'' ->
        ui w'' = ui w' /\ timers w'' = []).
Proof.
  intros Hstep _.
  apply step_inv in Hstep. destruct Hstep as (t & rest & Ht & ->).
  match goal with |- context [timerCallback random ?w0] =>
    destruct (timers_timerCallback random w0) as [Htimers Hnext]
  end.
  cbn [timers nextTimer] in Htimers, Hnext.
  split; [|split].
  - exists t. rewrite Htimers. exact Ht.
  - exact Hnext.
  - intros Hnone evs w'' Hns Hrun.
    exact (run_without_start evs _ w'' Hnone Hns Hrun).
Qed.

Lemma no_automatic_retry_witness :
  exists w',
    step (Timeout lit_0_9) (effectSetup initialRuntime) = Some w'
    /\ error (ui w') = Some failureMessage
    /\ timers w' = []
    /\ run [Cleanup; Cleanup] w' = Some (effectCleanup (effectCleanup w'))
    /\ ui (effectCleanup (effectCleanup w')) = ui w'.
Proof.
  eexists.
  assert (Hstep : step (Timeout lit_0_9) (effectSetup initialRuntime)
                  = Some ?[w']) by (vm_compute; reflexivity).
  split; [exact Hstep|]. split; [reflexivity|]. split; [reflexivity|].
  split; [reflexivity|].
  destruct (no_automatic_retry lit_0_9 _ _ Hstep) as (_ & _ & Hstable).
  - discriminate.
  - apply (Hstable eq_refl [Cleanup; Cleanup]); reflexivity.
Defined.

(** C5 (the code does otherwise). When [fetchUser] is called while an
    older request is pending, the older timer fires before the one this
    call registered, and its callback ends the loading state and sets an
    outcome and the draw while this call's own completion is still to
    come.  StrictMode's second setup is such a call: its timer (handle 1)
    is pending when the first timer fires (draw 0.4) and shows the
    success. *)
Theorem reset_undone_by_older_completion :
  (forall random w t rest,
      timers w = t :: rest ->
      exists w',
        step (Timeout random) (fetchUser w) = Some w'
        /\ In (nextTimer w) (timers w')
        /\ loading (ui w') = false
        /\ randomNumber (ui w') = Some random
        /\ (user (ui w') <> None \/ error (ui w') <> None))
  /\ run [Mount; Cleanup] initialRuntime
     = Some {| ui := loadingState; timers := [0%nat]; nextTimer := 1;
               console := [LogEffectMount; LogEffectCleanup] |}
  /\ run [Mount; Cleanup; Mount] initialRuntime
     = Some {| ui := loadingState; timers := [0; 1]%nat; nextTimer := 2;
               console := [LogEffectMount; LogEffectCleanup; LogEffectMount] |}
  /\ run [Mount; Cleanup; Mount; Timeout lit_0_4] initialRuntime
     = Some {| ui := {| user := Some fixedUser; loading := false;
                        error := None; randomNumber := Some lit_0_4 |};
               timers := [1%nat]; nextTimer := 2;
               console := [LogEffectMount; LogEffectCleanup; LogEffectMount;
                           LogRandomNumber lit_0_4] |}.
Proof.
  split; [|repeat split; vm_compute; reflexivity].
  intros random w t rest Ht. cbn [step].
  rewrite timers_fetchUser, Ht. cbn [app].
  eexists. split; [reflexivity|].
  match goal with |- context [timerCallback random ?w0] =>
    destruct (timers_timerCallback random w0) as [Htimers _]
  end.
  rewrite Htimers, ui_timerCallback. cbn [timers]. split.
  - apply in_or_app. right. left. reflexivity.
  - destruct (jsGt random lit_0_7); cbn [loading randomNumber user error];
      repeat split; first [left; discriminate | right; discriminate].
Qed.

(** C7 (the code does otherwise). With two requests in flight, a
    completion that sets the failure is followed, with no call of
    [fetchUser] in between, by the other completion, which replaces the
    failure by its own outcome.  After StrictMode's setup, cleanup, setup
    the first timer (draw 0.9) shows the failure and the second (draw 0.4)
    replaces it by the success; no button was clicked. *)
Theorem failure_replaced_without_user_input :
  (forall r1 r2 w t t' rest,
      timers w = t :: t' :: rest ->
      jsGt r1 lit_0_7 = true ->
      jsGt r2 lit_0_7 = false ->
      exists w1 w2,
        step (Timeout r1) w = Some w1
        /\ error (ui w1) = Some failureMessage
        /\ step (Timeout r2) w1 = Some w2
        /\ error (ui w2) = None
        /\ user (ui w2) = Some fixedUser)
  /\ run (strictModeMount ++ [Timeout lit_0_9]) initialRuntime
     = Some {| ui := {| user := None; loading := false;
                        error := Some failureMessage;
                        randomNumber := Some lit_0_9 |};
               timers := [1%nat]; nextTimer := 2;
               console := [LogEffectMount; LogEffectCleanup; LogEffectMount;
                           LogRandomNumber lit_0_9] |}
  /\ run (strictModeMount ++ [Timeout lit_0_9; Timeout lit_0_4])
         initialRuntime
     = Some {| ui := {| user := Some fixedUser; loading := false;
                        error := None; randomNumber := Some lit_0_4 |};
               timers := []; nextTimer := 2;
               console := [LogEffectMount; LogEffectCleanup; LogEffectMount;
                           LogRandomNumber lit_0_9;
                           LogRandomNumber lit_0_4] |}.
Proof.
  split; [|split; vm_compute; reflexivity].
  intros r1 r2 w t t' rest Ht Hgt1 Hgt2.
  set (w1 := timerCallback r1
               {| ui := ui w; timers := t' :: rest; nextTimer := nextTimer w;
                  console := console w |}).
  assert (Ht1 : timers w1 = t' :: rest)
    by (unfold w1; apply timers_timerCallback).
  exists w1.
  exists (timerCallback r2
            {| ui := ui w1; timers := rest; nextTimer := nextTimer w1;
               console := console w1 |}).
  split; [cbn [step]; rewrite Ht; reflexivity|].
  split; [unfold w1; rewrite ui_timerCallback, Hgt1; reflexivity|].
  split; [cbn [step]; rewrite Ht1; reflexivity|].
  rewrite ui_timerCallback, Hgt2. split; reflexivity.
Qed.

(** C2 (the code does otherwise). A completion is applied whatever else
    is pending: with a newer request in flight, the oldest timer's callback
    still records its draw and ends the loading state.  StrictMode's setup,
    cleanup, setup calls [fetchUser] twice within the delay and leaves two
    timers pending; when the first fires (draw 0.4) the success is shown
    while the second request is still in flight, and the second completion
    (draw 0.9) then replaces it by the failure. *)
Theorem stale_completion_is_applied :
  (forall random w t t' rest,
      timers w = t :: t' :: rest ->
      exists w',
        step (Timeout random) w = Some w'
        /\ timers w' = t' :: rest
        /\ loading (ui w') = false
        /\ randomNumber (ui w') = Some random)
  /\ run strictModeMount initialRuntime
  = Some {| ui := loadingState; timers := [0; 1]%nat; nextTimer := 2;
            console := [LogEffectMount; LogEffectCleanup; LogEffectMount] |}
  /\ run (strictModeMount ++ [Timeout lit_0_4]) initialRuntime
     = Some {| ui := {| user := Some fixedUser; loading := false;
                        error := None; randomNumber := Some lit_0_4 |};
               timers := [1%nat]; nextTimer := 2;
               console := [LogEffectMount; LogEffectCleanup; LogEffectMount;
                           LogRandomNumber lit_0_4] |}
  /\ run (strictModeMount ++ [Timeout lit_0_4; Timeout lit_0_9])
         initialRuntime
     = Some {| ui := {| user := None; loading := false;
                        error := Some failureMessage;
                        randomNumber := Some lit_0_9 |};
               timers := []; nextTimer := 2;
               console := [LogEffectMount; LogEffectCleanup; LogEffectMount;
                           LogRandomNumber lit_0_4;
                           LogRandomNumber lit_0_9] |}.
Proof.
  split.
  - intros random w t t' rest Ht. cbn [step]. rewrite Ht.
    eexists. split; [reflexivity|].
    rewrite ui_timerCallback.
    match goal with |- context [timerCallback random ?w0] =>
      destruct (timers_timerCallback random w0) as [Htimers _]
    end.
    split; [exact Htimers|].
    destruct (jsGt random lit_0_7); split; reflexivity.
  - repeat split; vm_compute; reflexivity.
Qed.

(** C4 (the code does otherwise). The effect cleanup only logs: it leaves
    every pending timer pending.  A timer registered before the cleanup
    fires after it, and its callback draws, logs and calls the setters,
    whether the effect has been set up again in between (StrictMode) or
    not. *)
Theorem cleanup_cancels_nothing :
  (forall w, timers (effectCleanup w) = timers w
             /\ ui (effectCleanup w) = ui w)
  /\ run [Mount; Cleanup] initialRuntime
     = Some {| ui := loadingState; timers := [0%nat]; nextTimer := 1;
               console := [LogEffectMount; LogEffectCleanup] |}
  /\ run [Mount; Cleanup; Timeout lit_0_4] initialRuntime
     = Some {| ui := {| user := Some fixedUser; loading := false;
                        error := None; randomNumber := Some lit_0_4 |};
               timers := []; nextTimer := 1;
               console := [LogEffectMount; LogEffectCleanup;
                           LogRandomNumber lit_0_4] |}
  /\ run [Mount; Cleanup; Mount; Timeout lit_0_4] initialRuntime
     = Some {| ui := {| user := Some fixedUser; loading := false;
                        error := None; randomNumber := Some lit_0_4 |};
               timers := [1%nat]; nextTimer := 2;
               console := [LogEffectMount; LogEffectCleanup; LogEffectMount;
                           LogRandomNumber lit_0_4] |}.
Proof.
  split; [intros w; split; reflexivity|].
  repeat split; vm_compute; reflexivity.
Qed.

(** C3. Outcome threshold: for every draw [r] of [Math.random()], one
    [fetchUser] followed by its completion ends with [loading] false and
    [r] recorded, with the fixed user set (and no error) exactly when
    [r <= 0.7], and with the error set (and no user) exactly when
    [r > 0.7]; the draw 0.4 gives the fixed user and the draw 0.9 the
    error. *)
Theorem outcome_threshold :
  (forall r,
      is_random_draw r = true ->
      exists w,
        run [Mount; Timeout r] initialRuntime = Some w
        /\ loading (ui w) = false
        /\ randomNumber (ui w) = Some r
        /\ ((value r <= 7 # 10)%Q <->
            user (ui w) = Some fixedUser /\ error (ui w) = None)
        /\ ((7 # 10 < value r)%Q <->
            error (ui w) = Some failureMessage /\ user (ui w) = None))
  /\ (is_random_draw lit_0_4 = true
      /\ exists w,
           run [Mount; Timeout lit_0_4] initialRuntime = Some w
           /\ ui w = {| user := Some fixedUser; loading := false;
                        error := None; randomNumber := Some lit_0_4 |})
  /\ (is_random_draw lit_0_9 = true
      /\ exists w,
           run [Mount; Timeout lit_0_9] initialRuntime = Some w
           /\ ui w = {| user := None; loading := false;
                        error := Some failureMessage;
                        randomNumber := Some lit_0_9 |}).
Proof.
  split; [|split].
  - intros r Hr.
    pose proof (gt_0_7_exact r Hr) as Hexact.
    eexists. split; [cbn [run step effectSetup fetchUser setTimeout timers
                           updateUi log app initialRuntime]; reflexivity|].
    rewrite ui_timerCallback.
    destruct (jsGt r lit_0_7) eqn:Hgt; cbn [user loading error randomNumber].
    + assert (Hlt : (7 # 10 < value r)%Q) by (now apply Hexact).
      split; [reflexivity|]. split; [reflexivity|]. split; split.
      * intros Hle. exfalso. exact (Qlt_not_le _ _ Hlt Hle).
      * intros [Hu _]. discriminate Hu.
      * intros _. split; reflexivity.
      * intros _. exact Hlt.
    + assert (Hle : (value r <= 7 # 10)%Q).
      { apply Qnot_lt_le. intros Hlt. apply Hexact in Hlt. discriminate Hlt. }
      split; [reflexivity|]. split; [reflexivity|]. split; split.
      * intros _. split; reflexivity.
      * intros _. exact Hle.
      * intros Hlt. exfalso. exact (Qlt_not_le _ _ Hlt Hle).
      * intros [He _]. discriminate He.
  - split; [vm_compute; reflexivity|].
    eexists. split; vm_compute; reflexivity.
  - split; [vm_compute; reflexivity|].
    eexists. split; vm_compute; reflexivity.
Qed.

(** ** TodoList *)

Example toggleTodo_initial :
  TodoList.toggleTodo 3 TodoList.initialTodos
  = [ TodoList.mkTodo 1 "Learn React useState" true;
      TodoList.mkTodo 2 "Master useEffect" true;
      TodoList.mkTodo 3 "Understand props" true;
      TodoList.mkTodo 4 "Practice conditional rendering" false;
      TodoList.mkTodo 5 "Build awesome apps" false ].
Proof. reflexivity. Qed.

Lemma toggleOne_fields (i : Z) (t : TodoList.Todo) :
  TodoList.id (TodoList.toggleOne i t) = TodoList.id t
  /\ TodoList.text (TodoList.toggleOne i t) = TodoList.text t
  /\ TodoList.completed (TodoList.toggleOne i t)
     = if TodoList.id t =? i then negb (TodoList.completed t)
       else TodoList.completed t.
Proof.
  unfold TodoList.toggleOne. destruct (TodoList.id t =? i); repeat split.
Qed.

Lemma toggleOne_other (i : Z) (t : TodoList.Todo) :
  TodoList.id t <> i -> TodoList.toggleOne i t = t.
Proof.
  intros Hne. unfold TodoList.toggleOne.
  destruct (Z.eqb_spec (TodoList.id t) i); [contradiction | reflexivity].
Qed.

(** C9. Frame condition of [toggleTodo]: the result has the length of the
    input; at every position the todo keeps its [id] and [text], and its
    [completed] flag is negated if its [id] is the argument and kept
    otherwise (a todo with another [id] is kept whole); if no todo has that
    [id] the list is unchanged. *)
Theorem toggleTodo_frame (i : Z) (todos : list TodoList.Todo) :
  List.length (TodoList.toggleTodo i todos) = List.length todos
  /\ (forall k t,
        nth_error todos k = Some t ->
        exists t',
          nth_error (TodoList.toggleTodo i todos) k = Some t'
          /\ TodoList.id t' = TodoList.id t
          /\ TodoList.text t' = TodoList.text t
          /\ TodoList.completed t'
             = (if TodoList.id t =? i then negb (TodoList.completed t)
                else TodoList.completed t)
          /\ (TodoList.id t <> i -> t' = t))
  /\ ((forall t, In t todos -> TodoList.id t <> i) ->
      TodoList.toggleTodo i todos = todos).
Proof.
  unfold TodoList.toggleTodo. split; [apply length_map|]. split.
  - intros k t Hk. exists (TodoList.toggleOne i t).
    rewrite nth_error_map, Hk. split; [reflexivity|].
    destruct (toggleOne_fields i t) as (Hid & Htext & Hdone).
    repeat split; try assumption. apply toggleOne_other.
  - intros Hnone. induction todos as [|t todos IH]; [reflexivity|].
    cbn [map]. rewrite toggleOne_other by (apply Hnone; left; reflexivity).
    rewrite IH; [reflexivity|].
    intros t0 Hin. apply Hnone. right. exact Hin.
Qed.

(** ** Counter *)

(** [jsAdd] and [jsSub] agree with the binary64 addition and subtraction
    of the Standard Library around the limits of exactness, and
    [roundToNumber] with its rounding beyond them. *)
Example jsAdd_jsSub_are_binary64 :
  map (fun a => SFadd prec emax (Counter.numberOfZ a) (Counter.numberOfZ 1))
      Counter.sampleCounts
  = map (fun a => Counter.numberOfZ (Counter.jsAdd a 1)) Counter.sampleCounts
  /\ map (fun a => SFsub prec emax (Counter.numberOfZ a) (Counter.numberOfZ 1))
         Counter.sampleCounts
     = map (fun a => Counter.numberOfZ (Counter.jsSub a 1))
           Counter.sampleCounts
  /\ map Counter.numberOfZ Counter.sampleIntegers
     = map (fun z => Counter.numberOfZ (Counter.roundToNumber z))
           Counter.sampleIntegers.
Proof. repeat split; vm_compute; reflexivity. Qed.

(** Up to [2^53] in magnitude nothing is rounded. *)
Lemma roundToNumber_exact (z : Z) :
  Z.abs z <= 2 ^ 53 -> Counter.roundToNumber z = z.
Proof.
  intros Hz. unfold Counter.roundToNumber. cbv zeta.
  destruct (Z.leb_spec (Z.abs z) (2 ^ 53)) as [_ | Hgt]; [reflexivity|].
  exfalso. apply (Z.lt_irrefl (2 ^ 53)).
  eapply Z.lt_le_trans; eassumption.
Qed.

Lemma increment_exact (s : Counter.State) :
  - 2 ^ 53 <= Counter.count s < 2 ^ 53 ->
  Counter.count (Counter.increment s) = Counter.count s + 1.
Proof.
  intros Hs. unfold Counter.increment, Counter.setCount, Counter.jsAdd.
  cbn [Counter.count]. apply roundToNumber_exact.
  change (2 ^ 53) with 9007199254740992 in *. lia.
Qed.

Lemma decrement_exact (s : Counter.State) :
  - 2 ^ 53 < Counter.count s <= 2 ^ 53 ->
  Counter.count (Counter.decrement s) = Counter.count s - 1.
Proof.
  intros Hs. unfold Counter.decrement, Counter.setCount, Counter.jsSub.
  cbn [Counter.count]. apply roundToNumber_exact.
  change (2 ^ 53) with 9007199254740992 in *. lia.
Qed.

(** C10, as stated, fails: at the count [2^53] the sum [count + 1] is not
    a number and rounds back to [2^53], so increment adds nothing and
    increment followed by decrement ends one below the original count. *)
Lemma counter_stuck_at_2_53 :
  ~ (forall s : Counter.State,
        Counter.count (Counter.increment s) = Counter.count s + 1
        /\ Counter.count (Counter.decrement s) = Counter.count s - 1
        /\ Counter.decrement (Counter.increment s) = s
        /\ Counter.count (Counter.reset s) = 0)
  /\ Counter.count (Counter.increment (Counter.mkState 9007199254740992))
     = 9007199254740992
  /\ Counter.decrement (Counter.increment (Counter.mkState 9007199254740992))
     = Counter.mkState 9007199254740991.
Proof.
  split; [|split; vm_compute; reflexivity].
  intros H. destruct (H (Counter.mkState 9007199254740992)) as (H1 & _).
  vm_compute in H1. discriminate H1.
Qed.

(** C10, amended. Counter arithmetic: for every count of magnitude below
    [2^53], [increment] adds exactly 1, [decrement] subtracts exactly 1 and
    [increment] followed by [decrement] gives back the original counter;
    [reset] gives 0 from any count. *)
Theorem counter_arithmetic (s : Counter.State) :
  (Z.abs (Counter.count s) < 2 ^ 53 ->
   Counter.count (Counter.increment s) = Counter.count s + 1
   /\ Counter.count (Counter.decrement s) = Counter.count s - 1
   /\ Counter.decrement (Counter.increment s) = s)
  /\ Counter.count (Counter.reset s) = 0.
Proof.
  split; [|reflexivity].
  intros Hs.
  assert (Hinc : Counter.count (Counter.increment s) = Counter.count s + 1)
    by (apply increment_exact; lia).
  split; [exact Hinc|]. split; [apply decrement_exact; lia|].
  assert (Hdec : Counter.count (Counter.decrement (Counter.increment s))
                 = Counter.count s).
  { rewrite decrement_exact; rewrite Hinc; change (2 ^ 53) with 9007199254740992 in *; lia. }
  destruct s as [c]. cbn [Counter.count] in Hdec.
  unfold Counter.decrement, Counter.setCount in *.
  cbn [Counter.count] in *. f_equal. exact Hdec.
Qed.

Lemma counter_arithmetic_witness :
  Counter.count (Counter.increment (Counter.mkState 9007199254740991))
  = 9007199254740992
  /\ Counter.decrement (Counter.increment (Counter.mkState (-9007199254740991)))
     = Counter.mkState (-9007199254740991).
Proof.
  split.
  - refine (proj1 (proj1 (counter_arithmetic
                            (Counter.mkState 9007199254740991)) _)).
    vm_compute. reflexivity.
  - refine (proj2 (proj2 (proj1 (counter_arithmetic
                                   (Counter.mkState (-9007199254740991))) _))).
    vm_compute. reflexivity.
Defined.

(** * Further properties *)

Local Open Scope nat_scope.

(** ** UserProfile: requests and completions *)

Lemma countEvents_cons (f : Event -> bool) (ev : Event) (evs : list Event) :
  countEvents f (ev :: evs) = (if f ev then 1 else 0) + countEvents f evs.
Proof. unfold countEvents. cbn [filter]. destruct (f ev); reflexivity. Qed.

(** The pending handles are a contiguous range: the completions so far
    consumed the handles below it, the calls of [fetchUser] issued the
    handles up to [nextTimer]. *)
Lemma run_queue (evs : list Event) :
  forall w w' a,
    run evs w = Some w' ->
    a <= nextTimer w ->
    timers w = seq a (nextTimer w - a) ->
    a + countEvents isTimeout evs <= nextTimer w'
    /\ timers w'
       = seq (a + countEvents isTimeout evs)
             (nextTimer w' - (a + countEvents isTimeout evs))
    /\ nextTimer w' = nextTimer w + countEvents startsRequest evs.
Proof.
  induction evs as [|ev evs IH]; intros w w' a Hrun Ha Hq.
  - inversion Hrun; subst. unfold countEvents. cbn [filter List.length].
    rewrite !Nat.add_0_r. auto.
  - cbn [run] in Hrun.
    destruct (step ev w) as [w1|] eqn:Hstep; [|discriminate].
    rewrite !countEvents_cons.
    assert (Hstart : forall w0, a <= nextTimer w0 ->
              timers w0 = seq a (nextTimer w0 - a) ->
              timers (fetchUser w0)
              = seq a (nextTimer (fetchUser w0) - a)).
    { intros w0 Ha0 Hq0. rewrite timers_fetchUser, Hq0.
      change (nextTimer (fetchUser w0)) with (S (nextTimer w0)).
      replace (S (nextTimer w0) - a) with (S (nextTimer w0 - a)) by lia.
      rewrite seq_S. repeat f_equal. lia. }
    step_cases Hstep; cbn [isTimeout startsRequest].
    + destruct (IH (effectSetup w) w' a Hrun) as (H1 & H2 & H3).
      * change (nextTimer (effectSetup w)) with (S (nextTimer w)). lia.
      * apply (Hstart (log LogEffectMount w)); assumption.
      * change (nextTimer (effectSetup w)) with (S (nextTimer w)) in H3.
        rewrite Nat.add_0_l. repeat split; try assumption. lia.
    + destruct (IH (effectCleanup w) w' a Hrun Ha Hq) as (H1 & H2 & H3).
      change (nextTimer (effectCleanup w)) with (nextTimer w) in H3.
      rewrite !Nat.add_0_l. repeat split; assumption.
    + destruct (IH (fetchUser w) w' a Hrun) as (H1 & H2 & H3).
      * change (nextTimer (fetchUser w)) with (S (nextTimer w)). lia.
      * apply Hstart; assumption.
      * change (nextTimer (fetchUser w)) with (S (nextTimer w)) in H3.
        rewrite Nat.add_0_l. repeat split; try assumption. lia.
    + match type of Hrun with run evs (timerCallback random ?w0) = _ =>
        destruct (timers_timerCallback random w0) as [Ht Hn];
        cbn [timers nextTimer] in Ht, Hn
      end.
      rewrite Hq in Htimers.
      destruct (nextTimer w - a) as [|k] eqn:Hk; [discriminate|].
      cbn [seq] in Htimers. inversion Htimers; subst t rest.
      destruct (IH _ w' (S a) Hrun) as (H1 & H2 & H3).
      * rewrite Hn. lia.
      * rewrite Ht, Hn. f_equal. lia.
      * rewrite Hn in H3. rewrite Nat.add_0_l.
        replace (a + (1 + countEvents isTimeout evs))
          with (S a + countEvents isTimeout evs) by lia.
        repeat split; assumption.
Qed.

(** X1. Completions follow the order of the requests: after any run, the
    pending timers are exactly the handles from the number of completions
    so far up to the number of [fetchUser] calls so far, oldest first; no
    request is dropped, cancelled or completed twice. *)
Theorem completions_in_request_order (evs : list Event) (w : Runtime) :
  run evs initialRuntime = Some w ->
  nextTimer w = countEvents startsRequest evs
  /\ countEvents isTimeout evs <= countEvents startsRequest evs
  /\ timers w
     = seq (countEvents isTimeout evs)
           (countEvents startsRequest evs - countEvents isTimeout evs).
Proof.
  intros Hrun.
  destruct (run_queue evs initialRuntime w 0 Hrun) as (H1 & H2 & H3).
  - cbn. lia.
  - reflexivity.
  - cbn [nextTimer initialRuntime] in H3. rewrite Nat.add_0_l in *.
    rewrite H3 in H1, H2. repeat split; assumption.
Qed.

Lemma completions_in_request_order_witness :
  exists w,
    run [Mount; Cleanup; Mount; Timeout lit_0_4; Reload] initialRuntime
    = Some w
    /\ timers w = [1; 2].
Proof.
  eexists.
  assert (Hrun : run [Mount; Cleanup; Mount; Timeout lit_0_4; Reload]
                     initialRuntime = Some ?[w])
    by (vm_compute; reflexivity).
  split; [exact Hrun|].
  destruct (completions_in_request_order _ _ Hrun) as (_ & _ & Hq).
  exact Hq.
Defined.

Lemma run_loading_pending (evs : list Event) :
  forall w w',
    (loading (ui w) = true -> timers w <> []) ->
    run evs w = Some w' ->
    loading (ui w') = true -> timers w' <> [].
Proof.
  induction evs as [|ev evs IH]; cbn [run]; intros w w' Hinv Hrun.
  - inversion Hrun; subst; exact Hinv.
  - destruct (step ev w) as [w1|] eqn:Hstep; [|discriminate].
    apply (IH w1 w'); [|exact Hrun].
    step_cases Hstep.
    + intros _. unfold effectSetup. rewrite timers_fetchUser.
      intros H. apply app_eq_nil in H as [_ H]. discriminate H.
    + exact Hinv.
    + intros _. rewrite timers_fetchUser.
      intros H. apply app_eq_nil in H as [_ H]. discriminate H.
    + rewrite ui_timerCallback.
      destruct (jsGt random lit_0_7); cbn [loading]; discriminate.
Qed.

(** X2. No stuck spinner: in every reachable state in which [loading] is
    set a timer is pending, so a completion can fire, and whatever it draws
    it clears [loading]. *)
Theorem loading_has_pending_timer (evs : list Event) (w : Runtime) :
  run evs initialRuntime = Some w ->
  loading (ui w) = true ->
  timers w <> []
  /\ forall random, exists w',
       step (Timeout random) w = Some w' /\ loading (ui w') = false.
Proof.
  intros Hrun Hl.
  assert (Hne : timers w <> []).
  { apply (run_loading_pending evs initialRuntime w); try assumption.
    discriminate. }
  split; [exact Hne|]. intros random. cbn [step].
  destruct (timers w) as [|t rest]; [contradiction|].
  eexists. split; [reflexivity|].
  rewrite ui_timerCallback. destruct (jsGt random lit_0_7); reflexivity.
Qed.

Lemma loading_has_pending_timer_witness :
  exists w,
    run [Mount; Timeout lit_0_9; Reload] initialRuntime = Some w
    /\ timers w <> [].
Proof.
  eexists.
  assert (Hrun : run [Mount; Timeout lit_0_9; Reload] initialRuntime
                 = Some ?[w]) by (vm_compute; reflexivity).
  split; [exact Hrun|].
  exact (proj1 (loading_has_pending_timer _ _ Hrun eq_refl)).
Defined.

Lemma guardedRun_single_request (evs : list Event) :
  forall w w',
    (ui w = loadingState /\ exists t, timers w = [t])
    \/ (loading (ui w) = false /\ timers w = []) ->
    existsb isMount evs = false ->
    guardedRun evs w = Some w' ->
    (ui w' = loadingState /\ exists t, timers w' = [t])
    \/ (loading (ui w') = false /\ timers w' = []).
Proof.
  induction evs as [|ev evs IH]; cbn [guardedRun existsb];
    intros w w' Hinv Hnm Hrun.
  - inversion Hrun; subst; exact Hinv.
  - apply orb_false_elim in Hnm as [Hev Hnm].
    unfold guardedStep in Hrun.
    destruct (offered ev w) eqn:Hoff; [|discriminate].
    destruct (step ev w) as [w1|] eqn:Hstep; [|discriminate].
    apply (IH w1 w'); [|exact Hnm|exact Hrun].
    step_cases Hstep; try discriminate.
    + exact Hinv.
    + destruct Hinv as [[Hui _] | [_ Ht]].
      * cbn [offered] in Hoff. rewrite Hui in Hoff. discriminate Hoff.
      * left. split; [reflexivity|].
        rewrite timers_fetchUser, Ht. eexists. reflexivity.
    + right.
      match goal with |- context [timerCallback random ?w0] =>
        destruct (timers_timerCallback random w0) as [Ht _];
        cbn [timers] in Ht
      end.
      rewrite ui_timerCallback, Ht. split.
      * destruct (jsGt random lit_0_7); reflexivity.
      * destruct Hinv as [[_ [t0 Hone]] | [_ Hnil]]; congruence.
Qed.

(** X3. One mount, one request at a time: when the effect is set up once
    and every click is on a button the display shows, at most one timer is
    pending, and one is pending exactly while the loading state is shown;
    a completion is then always that of the latest request. *)
Theorem single_mount_one_request (evs : list Event) (w : Runtime) :
  existsb isMount evs = false ->
  guardedRun (Mount :: evs) initialRuntime = Some w ->
  (ui w = loadingState /\ exists t, timers w = [t])
  \/ (loading (ui w) = false /\ timers w = []).
Proof.
  intros Hnm Hrun. cbn [guardedRun guardedStep offered step] in Hrun.
  apply (guardedRun_single_request evs (effectSetup initialRuntime) w);
    try assumption.
  left. split; [reflexivity | exists 0; reflexivity].
Qed.

Lemma single_mount_one_request_witness :
  exists w,
    guardedRun [Mount; Timeout lit_0_9; Reload; Cleanup] initialRuntime
    = Some w
    /\ ((ui w = loadingState /\ exists t, timers w = [t])
        \/ (loading (ui w) = false /\ timers w = [])).
Proof.
  eexists.
  assert (Hrun : guardedRun [Mount; Timeout lit_0_9; Reload; Cleanup]
                            initialRuntime = Some ?[w])
    by (vm_compute; reflexivity).
  split; [exact Hrun|].
  exact (single_mount_one_request [Timeout lit_0_9; Reload; Cleanup] _
           eq_refl Hrun).
Defined.

Lemma console_timerCallback (random : number) (w : Runtime) :
  console (timerCallback random w) = console w ++ [LogRandomNumber random].
Proof. unfold timerCallback. destruct (jsGt random lit_0_7); reflexivity. Qed.

Lemma run_console (evs : list Event) :
  forall w w',
    run evs w = Some w' -> console w' = console w ++ flat_map logOf evs.
Proof.
  induction evs as [|ev evs IH]; cbn [run flat_map]; intros w w' Hrun.
  - inversion Hrun; subst. now rewrite app_nil_r.
  - destruct (step ev w) as [w1|] eqn:Hstep; [|discriminate].
    rewrite (IH w1 w' Hrun). rewrite app_assoc. f_equal.
    step_cases Hstep; cbn [logOf]; try reflexivity.
    + now rewrite app_nil_r.
    + now rewrite console_timerCallback.
Qed.

(** X4. The console is a faithful trace: after any run it holds, in order,
    one mount line per effect setup, one cleanup line per cleanup and one
    random-number line per completion, with the draw of that completion;
    a reload click writes nothing. *)
Theorem console_traces_events (evs : list Event) (w : Runtime) :
  run evs initialRuntime = Some w ->
  console w = flat_map logOf evs.
Proof. intros Hrun. exact (run_console evs initialRuntime w Hrun). Qed.

Lemma console_traces_events_witness :
  exists w,
    run (strictModeMount ++ [Timeout lit_0_4; Timeout lit_0_9])
        initialRuntime = Some w
    /\ console w = [LogEffectMount; LogEffectCleanup; LogEffectMount;
                    LogRandomNumber lit_0_4; LogRandomNumber lit_0_9].
Proof.
  eexists.
  assert (Hrun : run (strictModeMount ++ [Timeout lit_0_4; Timeout lit_0_9])
                     initialRuntime = Some ?[w])
    by (vm_compute; reflexivity).
  split; [exact Hrun|].
  exact (console_traces_events _ _ Hrun).
Defined.

(** X5. The draw shown justifies the outcome shown: in every reachable
    state, a non-null [user] is the fixed user and the recorded draw is not
    above 0.7; a non-null [error] is the failure message and the recorded
    draw is above 0.7 - also when completions of several requests
    interleave. *)
Theorem draw_agrees_with_outcome (evs : list Event) (w : Runtime) :
  run evs initialRuntime = Some w ->
  (user (ui w) <> None ->
   user (ui w) = Some fixedUser
   /\ exists random,
        randomNumber (ui w) = Some random /\ jsGt random lit_0_7 = false)
  /\ (error (ui w) <> None ->
      error (ui w) = Some failureMessage
      /\ exists random,
           randomNumber (ui w) = Some random /\ jsGt random lit_0_7 = true).
Proof.
  intros Hrun.
  pose proof (reachable_consistent evs w Hrun) as Hc.
  destruct Hc as [ | | random Hgt | random Hgt ].
  - split; intros H; now elim H.
  - split; intros H; now elim H.
  - split; intros H; [|now elim H].
    split; [reflexivity|]. exists random. split; [reflexivity | exact Hgt].
  - split; intros H; [now elim H|].
    split; [reflexivity|]. exists random. split; [reflexivity | exact Hgt].
Qed.

Lemma draw_agrees_with_outcome_witness :
  exists w,
    run (strictModeMount ++ [Timeout lit_0_9; Timeout lit_0_4])
        initialRuntime = Some w
    /\ user (ui w) = Some fixedUser
    /\ randomNumber (ui w) = Some lit_0_4.
Proof.
  eexists.
  assert (Hrun : run (strictModeMount ++ [Timeout lit_0_9; Timeout lit_0_4])
                     initialRuntime = Some ?[w])
    by (vm_compute; reflexivity).
  split; [exact Hrun|].
  destruct (draw_agrees_with_outcome _ _ Hrun) as [Hu _].
  split; [apply Hu; discriminate | reflexivity].
Defined.


(** ** Clock *)

Lemma clock_setup_accounted (now : Clock.Date) (w : Clock.Runtime) :
  Clock.intervals w = [] -> Clock.accounted (Clock.effectSetup now w).
Proof.
  intros Hnil. unfold Clock.effectSetup, Clock.accounted.
  destruct (Clock.showBadExample (Clock.ui w)) eqn:Hs; cbn.
  - split; assumption.
  - rewrite Hnil, Hs. split; reflexivity.
Qed.

(** The cleanup clears the interval its closure captured. *)
Lemma clock_cleanup_clears (w : Clock.Runtime) :
  Clock.intervals w
  = match Clock.effect w with
    | Clock.SetUp (Some timer) => [timer]
    | _ => []
    end ->
  Clock.intervals (Clock.effectCleanup w) = []
  /\ Clock.effect (Clock.effectCleanup w) = Clock.NotSetUp
  /\ Clock.ui (Clock.effectCleanup w) = Clock.ui w.
Proof.
  unfold Clock.effectCleanup.
  destruct (Clock.effect w) as [|[timer|]]; cbn; intros Hi.
  - auto.
  - rewrite Hi. cbn. rewrite Nat.eqb_refl. cbn. auto.
  - auto.
Qed.

Lemma clock_accounted_intervals (w : Clock.Runtime) :
  Clock.accounted w ->
  Clock.intervals w
  = match Clock.effect w with
    | Clock.SetUp (Some timer) => [timer]
    | _ => []
    end.
Proof.
  unfold Clock.accounted.
  destruct (Clock.effect w) as [|[timer|]]; intros H; try apply H.
Qed.

Lemma clock_step_accounted (ev : Clock.Event) (w w' : Clock.Runtime) :
  Clock.accounted w -> Clock.step ev w = Some w' -> Clock.accounted w'.
Proof.
  intros Hacc Hstep.
  pose proof (clock_accounted_intervals w Hacc) as Hint.
  unfold Clock.step in Hstep.
  destruct ev as [now | | now | now].
  - destruct (Clock.effect w) eqn:He; [|discriminate].
    inversion Hstep; subst. apply clock_setup_accounted. exact Hint.
  - destruct (Clock.effect w) eqn:He; [discriminate|].
    inversion Hstep; subst.
    destruct (clock_cleanup_clears w) as (Hi & Heff & _).
    + rewrite He. exact Hint.
    + unfold Clock.accounted. rewrite Heff. exact Hi.
  - destruct (Clock.effect w) eqn:He; [discriminate|].
    inversion Hstep; subst. unfold Clock.toggleClick.
    apply clock_setup_accounted.
    apply clock_cleanup_clears.
    cbn [Clock.effect Clock.setShowBadExample Clock.intervals].
    rewrite He. exact Hint.
  - assert (Hw : w' = Clock.tick now w).
    { destruct (Clock.effect w); destruct (Clock.intervals w); congruence. }
    subst w'. exact Hacc.
Qed.

Lemma clock_run_accounted (evs : list Clock.Event) :
  forall w w',
    Clock.accounted w -> Clock.run evs w = Some w' -> Clock.accounted w'.
Proof.
  induction evs as [|ev evs IH]; cbn [Clock.run]; intros w w' Hacc Hrun.
  - inversion Hrun; subst; exact Hacc.
  - destruct (Clock.step ev w) as [w1|] eqn:Hstep; [|discriminate].
    eapply IH; [|exact Hrun]. eapply clock_step_accounted; eassumption.
Qed.

Lemma clock_reachable_accounted (evs : list Clock.Event) (w : Clock.Runtime) :
  Clock.run evs Clock.initialRuntime = Some w -> Clock.accounted w.
Proof. apply clock_run_accounted. reflexivity. Qed.

(** X6. The clock never leaks an interval: in every reachable state at
    most one interval is active; exactly one, the one the pending cleanup
    will clear, while the effect is set up outside the bad example, and
    none in the bad example or when the effect is not set up. *)
Theorem clock_at_most_one_interval
  (evs : list Clock.Event) (w : Clock.Runtime) :
  Clock.run evs Clock.initialRuntime = Some w ->
  List.length (Clock.intervals w) <= 1
  /\ (Clock.effect w = Clock.NotSetUp -> Clock.intervals w = [])
  /\ (Clock.showBadExample (Clock.ui w) = true -> Clock.intervals w = [])
  /\ (Clock.effect w <> Clock.NotSetUp ->
      Clock.showBadExample (Clock.ui w) = false ->
      exists timer,
        Clock.intervals w = [timer]
        /\ Clock.effect w = Clock.SetUp (Some timer)).
Proof.
  intros Hrun. pose proof (clock_reachable_accounted evs w Hrun) as Hacc.
  unfold Clock.accounted in Hacc.
  destruct (Clock.effect w) as [|[timer|]].
  - rewrite Hacc. split; [cbn; lia|]. split; [reflexivity|].
    split; [reflexivity|]. intros H. now elim H.
  - destruct Hacc as [Hi Hs]. rewrite Hi, Hs.
    split; [cbn; lia|]. split; [discriminate|]. split; [discriminate|].
    intros _ _. exists timer. split; reflexivity.
  - destruct Hacc as [Hi Hs]. rewrite Hi, Hs.
    split; [cbn; lia|]. split; [reflexivity|]. split; [reflexivity|].
    discriminate.
Qed.

Lemma clock_at_most_one_interval_witness :
  exists w,
    Clock.run [Clock.Mount 10%Z; Clock.Unmount; Clock.Mount 20%Z;
               Clock.Tick 1020%Z; Clock.Toggle 1500%Z; Clock.Toggle 1800%Z]
              Clock.initialRuntime = Some w
    /\ List.length (Clock.intervals w) <= 1.
Proof.
  eexists.
  assert (Hrun : Clock.run
                   [Clock.Mount 10%Z; Clock.Unmount; Clock.Mount 20%Z;
                    Clock.Tick 1020%Z; Clock.Toggle 1500%Z;
                    Clock.Toggle 1800%Z]
                   Clock.initialRuntime = Some ?[w])
    by (vm_compute; reflexivity).
  split; [exact Hrun|].
  exact (proj1 (clock_at_most_one_interval _ _ Hrun)).
Defined.

(** X7. Clean teardown: once the effect has been cleaned up, nothing but a
    new mount can happen; no interval callback fires after the unmount. *)
Theorem clock_unmounted_is_quiet
  (evs : list Clock.Event) (w : Clock.Runtime) (ev : Clock.Event) :
  Clock.run (evs ++ [Clock.Unmount]) Clock.initialRuntime = Some w ->
  Clock.step ev w <> None ->
  exists now, ev = Clock.Mount now.
Proof.
  intros Hrun Hstep.
  pose proof (clock_reachable_accounted _ w Hrun) as Hacc.
  assert (Heff : Clock.effect w = Clock.NotSetUp).
  { clear Hacc Hstep. revert Hrun. generalize Clock.initialRuntime.
    induction evs as [|e evs IH]; intros w0; cbn [app Clock.run].
    - unfold Clock.step.
      destruct (Clock.effect w0) as [|c] eqn:He; [discriminate|].
      intros H; inversion H; subst.
      unfold Clock.effectCleanup. rewrite He. destruct c; reflexivity.
    - destruct (Clock.step e w0); [apply IH | discriminate]. }
  unfold Clock.accounted in Hacc. rewrite Heff in Hacc.
  unfold Clock.step in Hstep. rewrite Heff, Hacc in Hstep.
  destruct ev as [now | | now | now]; try (now elim Hstep).
  exists now. reflexivity.
Qed.

Lemma clock_unmounted_is_quiet_witness :
  exists now, Clock.Mount 30%Z = Clock.Mount now.
Proof.
  apply (clock_unmounted_is_quiet
           [Clock.Mount 10%Z; Clock.Tick 1010%Z]
           (Clock.mkRuntime (Clock.mkState (Some 1010%Z) false) [] 1
              Clock.NotSetUp)
           (Clock.Mount 30%Z)).
  - vm_compute. reflexivity.
  - vm_compute. discriminate.
Defined.



Lemma clock_step_keeps_time (ev : Clock.Event) (w w' : Clock.Runtime) :
  (Clock.effect w <> Clock.NotSetUp -> Clock.time (Clock.ui w) <> None) ->
  Clock.step ev w = Some w' ->
  Clock.effect w' <> Clock.NotSetUp -> Clock.time (Clock.ui w') <> None.
Proof.
  intros Hinv Hstep. unfold Clock.step in Hstep.
  destruct ev as [now | | now | now].
  - destruct (Clock.effect w); [|discriminate]. inversion Hstep; subst.
    intros _. cbn. discriminate.
  - destruct (Clock.effect w) as [|c] eqn:He; [discriminate|].
    inversion Hstep; subst. unfold Clock.effectCleanup. rewrite He.
    destruct c; cbn; intros H; now elim H.
  - destruct (Clock.effect w) as [|c] eqn:He; [discriminate|].
    assert (Ht : Clock.time (Clock.ui w) <> None) by (apply Hinv; discriminate).
    inversion Hstep; subst. intros _.
    unfold Clock.toggleClick, Clock.effectSetup, Clock.effectCleanup.
    cbn [Clock.effect Clock.setShowBadExample].
    rewrite He.
    destruct c as [timer|];
      destruct (Clock.showBadExample (Clock.ui w)); cbn;
      first [exact Ht | discriminate].
  - assert (Hw : w' = Clock.tick now w).
    { destruct (Clock.effect w); destruct (Clock.intervals w); congruence. }
    subst w'. intros _. cbn. discriminate.
Qed.

(** X9. While the effect is set up a time is set: in every reachable
    state in which the effect is set up [time] is non-null, so the card
    shows a time; the placeholder belongs to the commit that precedes the
    setup of an instance's effect. *)
Theorem clock_time_set_while_set_up
  (evs : list Clock.Event) (w : Clock.Runtime) :
  Clock.run evs Clock.initialRuntime = Some w ->
  Clock.effect w <> Clock.NotSetUp ->
  exists d, Clock.timeText (Clock.ui w) = Clock.LocaleTime d.
Proof.
  intros Hrun Heff.
  assert (Ht : Clock.time (Clock.ui w) <> None).
  { revert Heff.
    assert (H0 : Clock.effect Clock.initialRuntime <> Clock.NotSetUp ->
                 Clock.time (Clock.ui Clock.initialRuntime) <> None)
      by (intros H; now elim H).
    revert H0 Hrun. generalize Clock.initialRuntime.
    induction evs as [|e evs IH]; cbn [Clock.run]; intros w0 H0 Hrun.
    - inversion Hrun; subst; exact H0.
    - destruct (Clock.step e w0) as [w1|] eqn:Hs; [|discriminate].
      apply (IH w1); [|exact Hrun].
      eapply clock_step_keeps_time; eassumption. }
  unfold Clock.timeText. destruct (Clock.time (Clock.ui w)) as [d|].
  - exists d. reflexivity.
  - contradiction.
Qed.

Lemma clock_time_set_while_set_up_witness :
  exists w,
    Clock.run [Clock.Mount 10%Z; Clock.Toggle 500%Z; Clock.Unmount;
               Clock.Mount 9000%Z]
              Clock.initialRuntime = Some w
    /\ Clock.showBadExample (Clock.ui w) = false
    /\ exists d, Clock.timeText (Clock.ui w) = Clock.LocaleTime d.
Proof.
  eexists.
  assert (Hrun : Clock.run [Clock.Mount 10%Z; Clock.Toggle 500%Z;
                            Clock.Unmount; Clock.Mount 9000%Z]
                           Clock.initialRuntime = Some ?[w])
    by (vm_compute; reflexivity).
  split; [exact Hrun|]. split; [reflexivity|].
  apply (clock_time_set_while_set_up _ _ Hrun). discriminate.
Defined.

Local Open Scope Z_scope.

(** ** TodoList: toggling and the progress bar *)

Lemma toggleOne_involutive (i : Z) (t : TodoList.Todo) :
  TodoList.toggleOne i (TodoList.toggleOne i t) = t.
Proof.
  destruct t as [j txt done]. unfold TodoList.toggleOne. cbn.
  destruct (j =? i) eqn:Hj; cbn; rewrite ?Hj, ?negb_involutive; reflexivity.
Qed.

(** X10. Toggling twice restores the list: [toggleTodo id] is its own
    inverse, for every list (also with repeated ids) and every id. *)
Theorem toggleTodo_involutive (i : Z) (todos : list TodoList.Todo) :
  TodoList.toggleTodo i (TodoList.toggleTodo i todos) = todos.
Proof.
  unfold TodoList.toggleTodo. rewrite map_map.
  rewrite <- (map_id todos) at 2. apply map_ext.
  intros t. apply toggleOne_involutive.
Qed.

(** X11. Toggles commute: toggling two ids, equal or not, gives the same
    list in either order. *)
Theorem toggleTodo_commutes (i j : Z) (todos : list TodoList.Todo) :
  TodoList.toggleTodo i (TodoList.toggleTodo j todos)
  = TodoList.toggleTodo j (TodoList.toggleTodo i todos).
Proof.
  unfold TodoList.toggleTodo. rewrite !map_map. apply map_ext.
  intros [k txt done]. unfold TodoList.toggleOne. cbn.
  destruct (k =? i) eqn:Hi; destruct (k =? j) eqn:Hj; cbn;
    rewrite ?Hi, ?Hj; reflexivity.
Qed.

(** X12. The progress bar never overflows: the completed count is at most
    the number of todos, and it reaches it exactly when every todo is
    completed. *)
Theorem progress_within_bounds (todos : list TodoList.Todo) :
  (TodoList.progressValue todos <= TodoList.progressMax todos)%nat
  /\ (TodoList.progressValue todos = TodoList.progressMax todos
      <-> forallb TodoList.completed todos = true).
Proof.
  unfold TodoList.progressValue, TodoList.progressMax, TodoList.completeCount.
  induction todos as [|t todos [IHle IHeq]]; cbn [filter forallb List.length].
  - split; [lia | split; reflexivity].
  - destruct (TodoList.completed t); cbn [List.length andb].
    + split; [lia|]. split.
      * intros H. apply IHeq. lia.
      * intros H. apply IHeq in H. lia.
    + split; [lia|]. split; [intros H; exfalso; lia | discriminate].
Qed.

Lemma toggleTodo_absent (i : Z) (todos : list TodoList.Todo) :
  ~ In i (map TodoList.id todos) -> TodoList.toggleTodo i todos = todos.
Proof.
  intros Hnotin. unfold TodoList.toggleTodo.
  rewrite <- (map_id todos) at 2. apply map_ext_in.
  intros t Hin. apply toggleOne_other.
  intros Heq. apply Hnotin. rewrite <- Heq. apply in_map. exact Hin.
Qed.

(** X13. One click moves the progress by one: when the ids are distinct
    and a todo has the given id, [toggleTodo] lowers the completed count by
    one if that todo was completed and raises it by one if it was not. *)
Theorem toggleTodo_moves_progress_by_one
  (t : TodoList.Todo) (todos : list TodoList.Todo) :
  NoDup (map TodoList.id todos) ->
  In t todos ->
  Z.of_nat (TodoList.completeCount
              (TodoList.toggleTodo (TodoList.id t) todos))
  = Z.of_nat (TodoList.completeCount todos)
    + (if TodoList.completed t then -1 else 1).
Proof.
  unfold TodoList.completeCount.
  induction todos as [|t0 todos IH]; intros Hnd Hin; [contradiction|].
  cbn [map] in Hnd. inversion Hnd as [|x l Hnotin Hnd']; subst.
  destruct Hin as [Heq | Hin].
  - subst t0.
    change (TodoList.toggleTodo (TodoList.id t) (t :: todos))
      with (TodoList.toggleOne (TodoList.id t) t
              :: TodoList.toggleTodo (TodoList.id t) todos).
    rewrite (toggleTodo_absent _ _ Hnotin).
    unfold TodoList.toggleOne. rewrite Z.eqb_refl.
    cbn [filter TodoList.completed].
    destruct (TodoList.completed t); cbn [negb List.length]; lia.
  - assert (Hne : TodoList.id t0 <> TodoList.id t).
    { intros Heq. apply Hnotin. rewrite Heq. apply in_map. exact Hin. }
    change (TodoList.toggleTodo (TodoList.id t) (t0 :: todos))
      with (TodoList.toggleOne (TodoList.id t) t0
              :: TodoList.toggleTodo (TodoList.id t) todos).
    rewrite (toggleOne_other _ _ Hne).
    specialize (IH Hnd' Hin).
    cbn [filter]. destruct (TodoList.completed t0); cbn [List.length]; lia.
Qed.

Lemma toggleTodo_moves_progress_by_one_witness :
  TodoList.completeCount (TodoList.toggleTodo 2 TodoList.initialTodos)
  = 1%nat.
Proof.
  pose proof (toggleTodo_moves_progress_by_one
                (TodoList.mkTodo 2 "Master useEffect" true)
                TodoList.initialTodos) as H.
  cbn [TodoList.id TodoList.completed] in H.
  apply Nat2Z.inj. rewrite H.
  - reflexivity.
  - repeat constructor; cbn; intuition discriminate.
  - right. left. reflexivity.
Defined.

(** X14. A click on a row changes that row only: when the ids are
    distinct, clicking the [k]-th rendered row negates the [completed] flag
    of the [k]-th todo and leaves every other position as it was. *)
Theorem clickRow_flips_that_row
  (k : nat) (t : TodoList.Todo) (todos : list TodoList.Todo) :
  NoDup (map TodoList.id todos) ->
  nth_error todos k = Some t ->
  nth_error (TodoList.clickRow k todos) k
  = Some (TodoList.mkTodo (TodoList.id t) (TodoList.text t)
            (negb (TodoList.completed t)))
  /\ forall j, j <> k ->
       nth_error (TodoList.clickRow k todos) j = nth_error todos j.
Proof.
  intros Hnd Hk. unfold TodoList.clickRow, TodoList.renderRows.
  rewrite nth_error_map, Hk. cbn [option_map TodoList.renderRow TodoList.toggles].
  unfold TodoList.toggleTodo. split.
  - rewrite nth_error_map, Hk. cbn [option_map].
    unfold TodoList.toggleOne. rewrite Z.eqb_refl. reflexivity.
  - intros j Hj. rewrite nth_error_map.
    destruct (nth_error todos j) as [t'|] eqn:Hjt; [|reflexivity].
    cbn [option_map]. f_equal. apply toggleOne_other.
    intros Heq. apply Hj.
    apply (proj1 (NoDup_nth_error (map TodoList.id todos)) Hnd j k).
    + rewrite length_map. apply nth_error_Some. congruence.
    + rewrite !nth_error_map, Hjt, Hk. cbn. congruence.
Qed.

Lemma clickRow_flips_that_row_witness :
  nth_error (TodoList.clickRow 2 TodoList.initialTodos) 2
  = Some (TodoList.mkTodo 3 "Understand props" true).
Proof.
  refine (proj1 (clickRow_flips_that_row 2
                   (TodoList.mkTodo 3 "Understand props" false)
                   TodoList.initialTodos _ eq_refl)).
  repeat constructor; cbn; intuition discriminate.
Defined.

(** ** Counter: sequences of clicks *)

Lemma clicks_app (cs1 cs2 : list Counter.Click) (s : Counter.State) :
  Counter.clicks (cs1 ++ cs2) s = Counter.clicks cs2 (Counter.clicks cs1 s).
Proof. unfold Counter.clicks. apply fold_left_app. Qed.

(** X15. The counter shows the balance of the clicks: without a reset,
    and as long as the starting magnitude plus the number of clicks stays
    below [2^53], any sequence of increment and decrement clicks ends at
    the starting count plus 1 per increment and minus 1 per decrement,
    whatever their order (the count goes below zero). *)
Theorem counter_is_click_balance
  (cs : list Counter.Click) (s : Counter.State) :
  existsb Counter.isReset cs = false ->
  Z.abs (Counter.count s) + Z.of_nat (List.length cs) < 2 ^ 53 ->
  Counter.count (Counter.clicks cs s)
  = Counter.count s + fold_right Z.add 0 (map Counter.delta cs).
Proof.
  revert s. induction cs as [|c cs IH]; intros s Hnr Hb.
  - cbn. lia.
  - cbn [existsb] in Hnr. apply orb_false_elim in Hnr as [Hc Hnr].
    change (Counter.clicks (c :: cs) s)
      with (Counter.clicks cs (Counter.onClick c s)).
    cbn [List.length] in Hb. rewrite Nat2Z.inj_succ in Hb.
    assert (Hstep : Counter.count (Counter.onClick c s)
                    = Counter.count s + Counter.delta c).
    { destruct c; try discriminate; cbn [Counter.onClick Counter.delta].
      - rewrite decrement_exact; lia.
      - rewrite increment_exact; lia. }
    rewrite (IH _ Hnr).
    + rewrite Hstep. cbn [map fold_right]. lia.
    + rewrite Hstep. destruct c; cbn [Counter.delta]; lia.
Qed.

Lemma counter_is_click_balance_witness :
  Counter.count
    (Counter.clicks [Counter.ClickDecrement; Counter.ClickDecrement;
                     Counter.ClickIncrement] Counter.initialState)
  = -1.
Proof.
  refine (counter_is_click_balance
            [Counter.ClickDecrement; Counter.ClickDecrement;
             Counter.ClickIncrement] Counter.initialState eq_refl _).
  vm_compute. reflexivity.
Defined.

Lemma onClick_in_range (c : Counter.Click) (s : Counter.State) :
  Z.abs (Counter.count s) <= 2 ^ 53 ->
  Z.abs (Counter.count (Counter.onClick c s)) <= 2 ^ 53.
Proof.
  intros Hs. destruct c; cbn [Counter.onClick].
  - destruct (Z.eq_dec (Counter.count s) (- 2 ^ 53)) as [He | Hne].
    + unfold Counter.decrement, Counter.setCount. cbn [Counter.count].
      rewrite He. vm_compute. discriminate.
    + rewrite decrement_exact; lia.
  - cbn. lia.
  - destruct (Z.eq_dec (Counter.count s) (2 ^ 53)) as [He | Hne].
    + unfold Counter.increment, Counter.setCount. cbn [Counter.count].
      rewrite He. vm_compute. discriminate.
    + rewrite increment_exact; lia.
Qed.

(** X18. The counter saturates: whatever is clicked, starting from the
    initial state, the count stays within [-2^53, 2^53]; at [2^53] an
    increment click and at [-2^53] a decrement click leave it unchanged. *)
Theorem counter_saturates (cs : list Counter.Click) :
  Z.abs (Counter.count (Counter.clicks cs Counter.initialState)) <= 2 ^ 53
  /\ Counter.increment (Counter.mkState (2 ^ 53)) = Counter.mkState (2 ^ 53)
  /\ Counter.decrement (Counter.mkState (- 2 ^ 53))
     = Counter.mkState (- 2 ^ 53).
Proof.
  split; [|split; vm_compute; reflexivity].
  assert (H0 : Z.abs (Counter.count Counter.initialState) <= 2 ^ 53)
    by (vm_compute; discriminate).
  revert H0. generalize Counter.initialState.
  induction cs as [|c cs IH]; intros s Hs.
  - exact Hs.
  - change (Counter.clicks (c :: cs) s)
      with (Counter.clicks cs (Counter.onClick c s)).
    apply IH. apply onClick_in_range. exact Hs.
Qed.

(** X16. Reset forgets the past: whatever was clicked before a reset, the
    state after it and any further clicks is the one the same further
    clicks give from the initial state. *)
Theorem counter_reset_forgets
  (before after : list Counter.Click) (s : Counter.State) :
  Counter.clicks (before ++ Counter.ClickReset :: after) s
  = Counter.clicks after Counter.initialState.
Proof.
  rewrite clicks_app.
  change (Counter.clicks (Counter.ClickReset :: after)
            (Counter.clicks before s))
    with (Counter.clicks after (Counter.reset (Counter.clicks before s))).
  reflexivity.
Qed.

(** ** Button *)

(** X17. The class of a button: for every variant the table gives the
    class [btn-] followed by the variant's name, so the rendered class is
    ["btn btn-<variant> <className>"], with the neutral variant when none
    is given and nothing after the last space when no class name (or an
    empty one) is given; different variants get different classes. *)
Theorem button_class (p : Button.Props) :
  Button.classAttr (Button.Button p)
  = ("btn btn-"
     ++ Button.variantName
          (match Button.variant p with Some v => v | None => Button.neutral end)
     ++ " "
     ++ match Button.className p with Some c => c | None => "" end)%string
  /\ forall q,
       Button.classNameOrEmpty (Button.className p)
       = Button.classNameOrEmpty (Button.className q) ->
       Button.classAttr (Button.Button p) = Button.classAttr (Button.Button q) ->
       match Button.variant p with Some v => v | None => Button.neutral end
       = match Button.variant q with Some v => v | None => Button.neutral end.
Proof.
  split.
  - unfold Button.Button. cbn [Button.classAttr].
    assert (Hc : Button.classNameOrEmpty (Button.className p)
                 = match Button.className p with Some c => c | None => "" end%string).
    { unfold Button.classNameOrEmpty. destruct (Button.className p) as [c|];
        [|reflexivity].
      destruct (String.eqb_spec c ""); congruence. }
    rewrite Hc. destruct (Button.variant p) as [[]|]; reflexivity.
  - intros q Hcn. unfold Button.Button. cbn [Button.classAttr].
    rewrite Hcn.
    destruct (Button.variant p) as [[]|]; destruct (Button.variant q) as [[]|];
      cbn; intros H; try reflexivity; discriminate H.
Qed.
